(** * Alert processing engine (coding-challenge/main.py)

    A shallow embedding of the alert model, the filter pipeline, the
    grouping pass, the priority score and the summary of
    [coding-challenge/main.py], with the properties of the specification
    stated and proved over it.

    Conventions of the embedding:
    - a Python [str] is a [string]; a Python [float] is a binary64 value of
      the kernel ([PrimFloat.float]); a Python [int] is a [Z] (or a [nat]
      where it is a length or a count); the fields of an alert have the
      types that the dataclass annotates;
    - a call that may raise returns a [result]: [Ok v] for a normal return,
      [Err e] for the exception [e] reaching the caller;
    - functions of the Python runtime whose text is not part of the
      repository ([str.lower], [datetime.fromisoformat],
      [datetime.isoformat]) are Section variables;
    - a [dict] whose iteration order is observed (the grouping dictionary)
      is an insertion-ordered association list; a [dict] used as a tally is
      a [gmap].

    The file has three parts: the program, the notions of the specification
    that the properties are stated with, and the properties. *)

From Stdlib Require Import ZArith List Ascii Floats Permutation.
From stdpp Require Import base strings list gmap.

Set Warnings "-inexact-float".
Set Default Proof Using "Type".

(** * The program *)

(** ** The Python runtime, as far as the program uses it *)

Module Py.

(** The exceptions that the modelled code can raise.  [ValueError] is what
    [datetime.fromisoformat] raises on a malformed timestamp (the
    specification's ParseError). *)
Inductive exn : Type :=
| ValueError
| TypeError
| ZeroDivisionError
| OverflowError.

Inductive result (A : Type) : Type :=
| Ok (v : A)
| Err (e : exn).
Arguments Ok {A} v.
Arguments Err {A} e.

Definition bind {A B : Type} (r : result A) (k : A -> result B) : result B :=
  match r with
  | Ok v => k v
  | Err e => Err e
  end.

Definition is_ok {A : Type} (r : result A) : bool :=
  match r with Ok _ => true | Err _ => false end.

(** A list comprehension [[x for x in l if cond(x)]] whose condition may
    raise: elements are visited in order and the first exception ends it. *)
Fixpoint filterM {A : Type} (cond : A -> result bool) (l : list A)
  : result (list A) :=
  match l with
  | [] => Ok []
  | x :: l' =>
      bind (cond x) (fun keep =>
      bind (filterM cond l') (fun rest =>
      Ok (if keep then x :: rest else rest)))
  end.

(** *** Floats *)

(** [float(n)] for an [int]: rounding to nearest, ties to even.  (CPython
    raises [OverflowError] from 2^1024 on; the integers converted by the
    program are list lengths and sums of at most ten per element.) *)
Definition float_of_int (n : Z) : float :=
  SF2Prim (binary_normalize prec emax n 0 false).

(** [x / y] on floats: a zero divisor of either sign raises. *)
Definition truediv (x y : float) : result float :=
  if PrimFloat.eqb y 0%float then Err ZeroDivisionError else Ok (x / y)%float.

(** [sum(l)] for a list of floats, as the language documents it and as
    CPython computes it up to version 3.11: the items are added from left
    to right, starting from the integer 0, each addition rounding to the
    nearest float.  The model of the program uses this one. *)
Definition fsum (l : list float) : float :=
  fold_left PrimFloat.add l 0%float.

(** [sum(l)] as CPython adds floats from version 3.12 on: the running total
    [s] is accompanied by a compensation [c] that collects the rounding
    error of each addition (Neumaier's summation) and is added at the end
    when it is finite and not zero.  It serves to check that a dependence
    on the order of the items is not peculiar to the plain sum. *)
Fixpoint fsum_compensated_loop (s c : float) (l : list float) : float :=
  match l with
  | [] => if negb (is_zero c) && is_finite c then (s + c)%float else s
  | x :: l' =>
      let t := (s + x)%float in
      let c' :=
        if (PrimFloat.abs x <=? PrimFloat.abs s)%float
        then (c + ((s - t) + x))%float
        else (c + ((x - t) + s))%float in
      fsum_compensated_loop t c' l'
  end.

Definition fsum_compensated (l : list float) : float :=
  match l with
  | [] => 0%float
  | x :: l' => fsum_compensated_loop (0 + x)%float 0%float l'
  end.

(** *** Strings *)

(** [s.replace(c, by)] for a one-character pattern [c]: every occurrence is
    replaced. *)
Fixpoint replace_char (c : ascii) (by_ : string) (s : string) : string :=
  match s with
  | EmptyString => EmptyString
  | String x s' =>
      if Ascii.eqb x c then String.append by_ (replace_char c by_ s')
      else String x (replace_char c by_ s')
  end.

(** Truth value of a [str]: the empty string is false. *)
Definition str_truthy (s : string) : bool :=
  match s with EmptyString => false | String _ _ => true end.

(** [str.lower] on the ASCII letters, leaving every other character as it
    is; used to run the model on ASCII inputs. *)
Definition ascii_lower_char (c : ascii) : ascii :=
  let n := nat_of_ascii c in
  if (65 <=? n)%nat && (n <=? 90)%nat then ascii_of_nat (n + 32) else c.

Fixpoint ascii_lower (s : string) : string :=
  match s with
  | EmptyString => EmptyString
  | String c s' => String (ascii_lower_char c) (ascii_lower s')
  end.

(** *** Datetimes *)

(** A [datetime]: its wall-clock reading, in microseconds since
    0001-01-01T00:00:00, and, when it is timezone-aware, its UTC offset in
    microseconds.  A naive datetime has no offset. *)
Record datetime : Type := mk_datetime {
  wall : Z;
  utcoffset : option Z
}.

(** Order comparisons of datetimes: two naive values compare by wall clock,
    two aware values by UTC instant, and a naive value against an aware one
    raises [TypeError]. *)
Definition dt_cmp (op : Z -> Z -> bool) (x y : datetime) : result bool :=
  match utcoffset x, utcoffset y with
  | None, None => Ok (op (wall x) (wall y))
  | Some ox, Some oy => Ok (op (wall x - ox)%Z (wall y - oy)%Z)
  | _, _ => Err TypeError
  end.

Definition dt_lt := dt_cmp Z.ltb.
Definition dt_gt := dt_cmp Z.gtb.
Definition dt_ge := dt_cmp Z.geb.

(** [timedelta(minutes=m)], in microseconds: a duration holds at most
    999999999 days either way. *)
Definition timedelta_minutes (m : Z) : result Z :=
  let us := (m * 60000000)%Z in
  let days := (us / 86400000000)%Z in
  if (-999999999 <=? days)%Z && (days <=? 999999999)%Z then Ok us
  else Err OverflowError.

(** The wall-clock readings of [datetime.min] .. [datetime.max] are
    0001-01-01T00:00:00 .. 9999-12-31T23:59:59.999999. *)
Definition datetime_span : Z := 3652059 * 86400000000.

(** [x - td] for a duration [td]: the wall clock moves, the offset stays,
    and a reading outside the range of [datetime] raises. *)
Definition datetime_sub (x : datetime) (td : Z) : result datetime :=
  let w := (wall x - td)%Z in
  if (0 <=? w)%Z && (w <? datetime_span)%Z then Ok (mk_datetime w (utcoffset x))
  else Err OverflowError.

End Py.

Import Py.

Notation "x <- e ;; k" := (Py.bind e (fun x => k))
  (at level 100, e at next level, right associativity).

(** ** SeverityLevel *)

Module SeverityLevel.

Inductive t : Type := CRITICAL | WARNING | INFO.

Definition label (l : t) : string :=
  match l with
  | CRITICAL => "critical"
  | WARNING => "warning"
  | INFO => "info"
  end.

Definition weight (l : t) : Z :=
  match l with
  | CRITICAL => 10
  | WARNING => 5
  | INFO => 1
  end.

(** Iteration over the enumeration yields its members in definition
    order. *)
Definition members : list t := [CRITICAL; WARNING; INFO].

End SeverityLevel.

(** ** Alert *)

Module Alert.

Record t : Type := mk {
  id : string;
  timestamp : string;
  service : string;
  component : string;
  severity : string;
  metric : string;
  value : float;
  threshold : float;
  description : string
}.

Section Parse.

(** [datetime.fromisoformat]: [None] stands for the [ValueError] it raises
    on a string that is not in ISO-8601 format. *)
Variable fromisoformat : string -> option datetime.

Definition get_datetime (self : t) : result datetime :=
  let timestamp := replace_char "Z"%char "+00:00" (timestamp self) in
  match fromisoformat timestamp with
  | Some d => Ok d
  | None => Err ValueError
  end.

End Parse.

Definition get_deviation_percentage (self : t) : result float :=
  if PrimFloat.eqb (threshold self) 0%float then Ok 0%float
  else
    q <- truediv (value self - threshold self)%float (threshold self) ;;
    Ok (q * 100)%float.

(** The grouping key of an alert. *)
Definition key (self : t) : string * string := (service self, component self).

End Alert.

(** ** AlertGroup *)

Module AlertGroup.

Record t : Type := mk {
  service : string;
  component : string;
  alerts : list Alert.t;
  severity_counts : gmap string nat;
  total_alerts : nat
}.

(** [AlertGroup(service, component)]: the other fields take their
    defaults (a fresh list, a fresh dict, 0). *)
Definition new (service component : string) : t :=
  mk service component [] ∅ 0.

Definition set_service (s : string) (self : t) : t :=
  mk s (component self) (alerts self) (severity_counts self) (total_alerts self).

Definition set_component (c : string) (self : t) : t :=
  mk (service self) c (alerts self) (severity_counts self) (total_alerts self).

Definition add_alert (self : t) (alert : Alert.t) : t :=
  let alerts' := alerts self ++ [alert] in
  let severity_counts' :=
    <[Alert.severity alert :=
        default 0 (severity_counts self !! Alert.severity alert) + 1]>
      (severity_counts self) in
  mk (service self) (component self) alerts' severity_counts' (length alerts').

End AlertGroup.

(** ** AlertProcessor *)

Module AlertProcessor.

(** The processor after [load_alerts]: reading and decoding the file is
    outside the model, which starts from the loaded list. *)
Record t : Type := mk {
  file_path : string;
  alerts : list Alert.t
}.

(** *** The grouping dictionary

    [defaultdict(lambda: AlertGroup("", ""))] keyed by (service, component),
    in insertion order. *)
Definition groups_dict : Type := list ((string * string) * AlertGroup.t).

Fixpoint dict_get (d : groups_dict) (k : string * string)
  : option AlertGroup.t :=
  match d with
  | [] => None
  | (k', g) :: d' => if bool_decide (k' = k) then Some g else dict_get d' k
  end.

(** [d[k]]: a missing key is first bound to the default group, after every
    key already present. *)
Definition dict_getitem (d : groups_dict) (k : string * string)
  : groups_dict * AlertGroup.t :=
  match dict_get d k with
  | Some g => (d, g)
  | None => let g := AlertGroup.new "" "" in (d ++ [(k, g)], g)
  end.

(** A mutation [f] of the group object bound to [k]. *)
Fixpoint dict_update (f : AlertGroup.t -> AlertGroup.t) (k : string * string)
  (d : groups_dict) : groups_dict :=
  match d with
  | [] => []
  | (k', g) :: d' =>
      if bool_decide (k' = k) then (k', f g) :: d'
      else (k', g) :: dict_update f k d'
  end.

(** One iteration of the loop of [group_alerts]. *)
Definition group_step (d : groups_dict) (alert : Alert.t) : groups_dict :=
  let group_key := (Alert.service alert, Alert.component alert) in
  let '(d1, g) := dict_getitem d group_key in
  let d2 :=
    if String.eqb (AlertGroup.service g) "" then
      dict_update (AlertGroup.set_component (Alert.component alert)) group_key
        (dict_update (AlertGroup.set_service (Alert.service alert)) group_key d1)
    else d1 in
  dict_update (fun g => AlertGroup.add_alert g alert) group_key d2.

Definition group_alerts (self : t) (alerts : option (list Alert.t))
  : list AlertGroup.t :=
  let alerts := match alerts with None => AlertProcessor.alerts self | Some l => l end in
  let groups_dict := fold_left group_step alerts [] in
  map snd groups_dict.

(** *** The priority score *)

(** [next((level for level in SeverityLevel if level.label == s), None)] *)
Definition find_level (s : string) : option SeverityLevel.t :=
  List.find (fun level => String.eqb (SeverityLevel.label level) s)
    SeverityLevel.members.

Definition severity_step (severity_score : Z) (alert : Alert.t) : Z :=
  match find_level (Alert.severity alert) with
  | Some severity_level => (severity_score + SeverityLevel.weight severity_level)%Z
  | None => severity_score
  end.

(** [[abs(alert.get_deviation_percentage()) for alert in alerts]] *)
Fixpoint abs_deviations (alerts : list Alert.t) : result (list float) :=
  match alerts with
  | [] => Ok []
  | alert :: alerts' =>
      d <- Alert.get_deviation_percentage alert ;;
      rest <- abs_deviations alerts' ;;
      Ok (PrimFloat.abs d :: rest)
  end.

(** [x / n] for an [int] [n]: the divisor is converted to a float, and the
    division raises exactly when [n] is zero. *)
Definition truediv_int (x : float) (n : Z) : result float :=
  if (n =? 0)%Z then Err ZeroDivisionError else Ok (x / float_of_int n)%float.

(** [len(set((alert.service, alert.component) for alert in alerts))] *)
Definition get_affected_components_count (alerts : list Alert.t) : nat :=
  size (list_to_set (map Alert.key alerts) : gset (string * string)).

(** The method does not read [self]; it is a function of its argument. *)
Definition calculate_incident_priority (alerts : list Alert.t) : result float :=
  match alerts with
  | [] => Ok 0%float
  | _ :: _ =>
      let severity_score := fold_left severity_step alerts 0%Z in
      deviations <- abs_deviations alerts ;;
      avg_deviation <-
        match deviations with
        | [] => Ok 0%float
        | _ :: _ => truediv_int (fsum deviations) (Z.of_nat (length deviations))
        end ;;
      let affected_components := get_affected_components_count alerts in
      Ok (float_of_int severity_score * 0.5
          + avg_deviation * 0.3
          + float_of_int (Z.of_nat affected_components) * 0.2)%float
  end.

(** *** Filtering and the summary *)

(** The values stored in the summary dictionary. *)
Inductive value : Type :=
| VInt (n : nat)
| VCounts (m : gmap string nat)
| VRange (earliest latest : string).

(** A [defaultdict(int)] incremented once per alert under [field alert]. *)
Definition tally (field : Alert.t -> string) (alerts : list Alert.t)
  : gmap string nat :=
  fold_left
    (fun counts alert =>
       <[field alert := default 0 (counts !! field alert) + 1]> counts)
    alerts ∅.

Section Runtime.

Variable lower : string -> string.
Variable fromisoformat : string -> option datetime.
Variable isoformat : datetime -> string.

(** The condition of the time-window comprehension. *)
Definition recent (cutoff_time : datetime) (alert : Alert.t) : result bool :=
  d <- Alert.get_datetime fromisoformat alert ;; dt_ge d cutoff_time.

(** [clock] is the wall-clock reading of [datetime.now(timezone.utc)]; it is
    read at most once per call. *)
Definition filter_alerts (self : t) (severity service : option string)
  (time_window_minutes : option Z) (clock : Z) : result (list Alert.t) :=
  let filtered_alerts := alerts self in
  let filtered_alerts :=
    match severity with
    | Some severity =>
        if str_truthy severity then
          let severity := lower severity in
          List.filter
            (fun alert => String.eqb (lower (Alert.severity alert)) severity)
            filtered_alerts
        else filtered_alerts
    | None => filtered_alerts
    end in
  let filtered_alerts :=
    match service with
    | Some service =>
        if str_truthy service then
          let service := lower service in
          List.filter
            (fun alert => String.eqb (lower (Alert.service alert)) service)
            filtered_alerts
        else filtered_alerts
    | None => filtered_alerts
    end in
  match time_window_minutes with
  | Some minutes =>
      if negb (minutes =? 0)%Z then
        cutoff_time <-
          (let now := mk_datetime clock (Some 0%Z) in
           td <- timedelta_minutes minutes ;; datetime_sub now td) ;;
        filterM (recent cutoff_time) filtered_alerts
      else Ok filtered_alerts
  | None => Ok filtered_alerts
  end.

(** [min(...)] and [max(...)] over the generator of parsed timestamps: each
    item is parsed, then compared with the best one so far ([<] for [min],
    [>] for [max]); the first of several equal items is kept. *)
Fixpoint extreme_loop (better : datetime -> datetime -> result bool)
  (best : datetime) (alerts : list Alert.t) : result datetime :=
  match alerts with
  | [] => Ok best
  | alert :: alerts' =>
      d <- Alert.get_datetime fromisoformat alert ;;
      b <- better d best ;;
      extreme_loop better (if b then d else best) alerts'
  end.

Definition extreme (better : datetime -> datetime -> result bool)
  (alerts : list Alert.t) : result datetime :=
  match alerts with
  | [] => Err ValueError
  | alert :: alerts' =>
      d <- Alert.get_datetime fromisoformat alert ;;
      extreme_loop better d alerts'
  end.

Definition get_alert_summary (self : t) : result (gmap string value) :=
  match alerts self with
  | [] => Ok {[ "total_alerts" := VInt 0 ]}
  | _ :: _ =>
      let severity_counts := tally Alert.severity (alerts self) in
      let service_counts := tally Alert.service (alerts self) in
      let component_counts := tally Alert.component (alerts self) in
      earliest <- extreme dt_lt (alerts self) ;;
      latest <- extreme dt_gt (alerts self) ;;
      Ok (<["total_alerts" := VInt (length (alerts self))]>
          (<["severity_distribution" := VCounts severity_counts]>
          (<["service_distribution" := VCounts service_counts]>
          (<["component_distribution" := VCounts component_counts]>
          (<["time_range" := VRange (isoformat earliest) (isoformat latest)]>
           ∅)))))
  end.

End Runtime.

End AlertProcessor.

(** * The notions of the specification *)

(** ** Grouping *)

(** The distinct elements of a list, in order of first appearance. *)
Fixpoint first_appearance {A : Type} `{EqDecision A} (l : list A) : list A :=
  match l with
  | [] => []
  | x :: l' =>
      x :: List.filter (fun y => negb (bool_decide (y = x))) (first_appearance l')
  end.

(** The alerts of [l] that carry the key [k], in input order. *)
Definition members (l : list Alert.t) (k : string * string) : list Alert.t :=
  List.filter (fun a => bool_decide (Alert.key a = k)) l.

(** The group that a grouping pass over [l] holds for the key [k]. *)
Definition group_of (l : list Alert.t) (k : string * string) : AlertGroup.t :=
  AlertGroup.mk k.1 k.2 (members l k)
    (AlertProcessor.tally Alert.severity (members l k)) (length (members l k)).

(** The grouping dictionary after a pass over [l], in closed form. *)
Definition groups_of (l : list Alert.t) : AlertProcessor.groups_dict :=
  map (fun k => (k, group_of l k)) (first_appearance (map Alert.key l)).

(** The sum of the values of a tally ([sum(d.values())]). *)
Definition dict_sum (m : gmap string nat) : nat :=
  map_fold (fun _ n acc => n + acc) 0 m.

(** The invariant of a group. *)
Definition group_wf (g : AlertGroup.t) : Prop :=
  AlertGroup.total_alerts g = length (AlertGroup.alerts g) /\
  dict_sum (AlertGroup.severity_counts g) = AlertGroup.total_alerts g.

(** ** The score *)

(** The severity catalog: the weight of the level whose label is exactly
    [s], and 0 when no label matches. *)
Definition catalog_weight (s : string) : Z :=
  if String.eqb s "critical" then 10
  else if String.eqb s "warning" then 5
  else if String.eqb s "info" then 1
  else 0.

Definition severityScore (l : list Alert.t) : Z :=
  fold_right Z.add 0%Z (map (fun a => catalog_weight (Alert.severity a)) l).

Definition deviationPercent (a : Alert.t) : float :=
  if PrimFloat.eqb (Alert.threshold a) 0%float then 0%float
  else ((Alert.value a - Alert.threshold a) / Alert.threshold a * 100)%float.

(** The absolute deviations, in input order. *)
Definition absDeviations (l : list Alert.t) : list float :=
  map (fun a => PrimFloat.abs (deviationPercent a)) l.

(** The mean of the absolute deviations. *)
Definition avgDeviation (l : list Alert.t) : float :=
  (fsum (absDeviations l) / float_of_int (Z.of_nat (length l)))%float.

(** The number of distinct (service, component) pairs. *)
Definition affectedComponents (l : list Alert.t) : nat :=
  length (remove_dups (map Alert.key l)).

Definition score (l : list Alert.t) : float :=
  (0.5 * float_of_int (severityScore l)
   + 0.3 * avgDeviation l
   + 0.2 * float_of_int (Z.of_nat (affectedComponents l)))%float.

(** ** The filter criteria and the timestamps *)

(** The timestamp with a final [Z] read as [+00:00]. *)
Fixpoint z_suffix_normal (s : string) : string :=
  match s with
  | EmptyString => EmptyString
  | String c EmptyString =>
      if Ascii.eqb c "Z"%char then "+00:00" else String c EmptyString
  | String c s' => String c (z_suffix_normal s')
  end.

(** No [Z] stands before the last character. *)
Fixpoint inner_Z_free (s : string) : bool :=
  match s with
  | EmptyString => true
  | String c EmptyString => true
  | String c s' => negb (Ascii.eqb c "Z"%char) && inner_Z_free s'
  end.

Section Criteria.

Variable lower : string -> string.
Variable fromisoformat : string -> option datetime.

(** Case-insensitive exact match. *)
Definition matches_ci (x y : string) : bool := String.eqb (lower x) (lower y).

(** The cutoff instant: the current UTC instant minus the window, when
    [datetime] can represent it. *)
Definition cutoff (clock minutes : Z) : result datetime :=
  td <- timedelta_minutes minutes ;;
  datetime_sub (mk_datetime clock (Some 0%Z)) td.

(** The window test of the program on one alert, as a boolean: false when
    the test raises. *)
Definition on_or_after (c : datetime) (a : Alert.t) : bool :=
  match AlertProcessor.recent fromisoformat c a with
  | Ok b => b
  | Err _ => false
  end.

(** An omitted criterion imposes no constraint. *)
Definition criterion {A : Type} (c : option A) (p : A -> bool) : bool :=
  match c with None => true | Some x => p x end.

(** The conjunction of the severity and service criteria. *)
Definition satisfies_labels (severity service : option string) (a : Alert.t)
  : bool :=
  criterion severity (matches_ci (Alert.severity a)) &&
  criterion service (matches_ci (Alert.service a)).

(** The conjunction of all the criteria, the window as the program tests
    it. *)
Definition satisfies (severity service : option string) (window : option Z)
  (clock : Z) (a : Alert.t) : bool :=
  satisfies_labels severity service a &&
  criterion window
    (fun m => match cutoff clock m with
              | Ok c => on_or_after c a
              | Err _ => false
              end).

(** The criteria that take effect: an empty string and a window of zero
    minutes count as omitted. *)
Definition effective_label (c : option string) : option string :=
  match c with
  | Some s => if str_truthy s then Some s else None
  | None => None
  end.

Definition effective_window (c : option Z) : option Z :=
  match c with
  | Some m => if (m =? 0)%Z then None else Some m
  | None => None
  end.

(** The condition of the single pass that the stages of the filter amount
    to, for a window that takes effect: an alert that fails the severity or
    service criterion is dropped before its timestamp is looked at. *)
Definition pass_condition (severity service : option string) (c : datetime)
  (a : Alert.t) : result bool :=
  if satisfies_labels (effective_label severity) (effective_label service) a
  then AlertProcessor.recent fromisoformat c a
  else Ok false.

(** The timestamp parses, to a timezone-aware datetime. *)
Definition parses_aware (a : Alert.t) : Prop :=
  exists d, Alert.get_datetime fromisoformat a = Ok d /\ is_Some (utcoffset d).

(** Every timestamp of the list that parses carries a UTC offset. *)
Definition timestamps_aware (l : list Alert.t) : Prop :=
  forall a d, a ∈ l -> Alert.get_datetime fromisoformat a = Ok d ->
              is_Some (utcoffset d).

(** The condition under which a filter returns: when a window takes effect,
    the cutoff is representable and the alerts that pass the severity and
    service criteria parse to aware datetimes. *)
Definition filter_returns (self : AlertProcessor.t)
  (severity service : option string) (window : option Z) (clock : Z) : Prop :=
  forall m, effective_window window = Some m ->
    is_ok (cutoff clock m) = true /\
    forall a, a ∈ AlertProcessor.alerts self ->
      satisfies_labels (effective_label severity) (effective_label service) a
        = true ->
      parses_aware a.

End Criteria.

(** ** The summary *)

(** The UTC instant of an aware datetime (the wall clock of a naive one). *)
Definition instant (d : datetime) : Z := (wall d - default 0%Z (utcoffset d))%Z.

(** [c] is the distribution of [field] over [l]: the count under [s] is the
    number of alerts whose field is literally [s], keys with no alert are
    absent, and the counts add up to the number of alerts. *)
Definition distribution_of (field : Alert.t -> string) (l : list Alert.t)
  (c : gmap string nat) : Prop :=
  dict_sum c = length l /\
  forall s, c !! s =
    match length (List.filter (fun a => bool_decide (field a = s)) l) with
    | O => None
    | S n => Some (S n)
    end.

(** ** The time window and the parsed time, in UTC instants *)

Section Window.

Variable lower : string -> string.
Variable fromisoformat : string -> option datetime.

(** The cutoff instant of a window of [minutes] minutes at the UTC instant
    [clock], in microseconds: the clock reading minus the window. *)
Definition cutoff_instant (clock minutes : Z) : Z :=
  (clock - minutes * 60000000)%Z.

(** The window criterion: the timestamp parses, and the UTC instant it
    denotes is the cutoff instant or a later one. *)
Definition within_window (clock minutes : Z) (a : Alert.t) : bool :=
  match Alert.get_datetime fromisoformat a with
  | Ok d => (cutoff_instant clock minutes <=? instant d)%Z
  | Err _ => false
  end.

(** The conjunction of the criteria, the window read in UTC instants. *)
Definition selects (severity service : option string) (window : option Z)
  (clock : Z) (a : Alert.t) : bool :=
  satisfies_labels lower severity service a &&
  criterion window (fun m => within_window clock m a).

(** The parsed time of the data model: the timestamp, a [Z] suffix read as
    [+00:00], handed to the ISO-8601 parser; [None] when the parser rejects
    it. *)
Definition parsedTime (a : Alert.t) : option datetime :=
  fromisoformat (z_suffix_normal (Alert.timestamp a)).

(** No timestamp of the list has a [Z] before its last character. *)
Definition z_only_as_suffix (l : list Alert.t) : Prop :=
  forall a, a ∈ l -> inner_Z_free (Alert.timestamp a) = true.

(** Every timestamp of the list that the parser accepts carries a UTC
    offset. *)
Definition parsed_times_aware (l : list Alert.t) : Prop :=
  forall a d, a ∈ l -> parsedTime a = Some d -> is_Some (utcoffset d).

End Window.

(** ** Sample data *)

(** A table standing for [datetime.fromisoformat] on the timestamps of the
    examples: midnight of 2024-01-01 with a UTC offset, the same reading
    without an offset, and no other string. *)
Definition sample_fromisoformat (s : string) : option datetime :=
  if String.eqb s "2024-01-01T00:00:00+00:00"
  then Some (mk_datetime 63839664000000000 (Some 0%Z))
  else if String.eqb s "2024-01-01T00:00:00"
  then Some (mk_datetime 63839664000000000 None)
  else None.

(** The two alerts of the specification's scenario. *)
Definition scenario_alerts : list Alert.t :=
  [ Alert.mk "a1" "2024-01-01T00:00:00Z" "payment-processor" "db"
      "critical" "cpu" 95 50 "";
    Alert.mk "a2" "2024-01-01T00:00:00Z" "payment-processor" "db"
      "info" "cpu" 10 10 "" ].

Definition one_critical : AlertProcessor.t :=
  AlertProcessor.mk "sample_alerts.json"
    [ Alert.mk "a1" "2024-01-01T00:00:00Z" "payment-processor" "db"
        "critical" "cpu" 95 50 "" ].

Definition two_services : AlertProcessor.t :=
  AlertProcessor.mk "sample_alerts.json"
    [ Alert.mk "a1" "2024-01-01T00:00:00Z" "payment-processor" "db"
        "critical" "cpu" 95 50 "";
      Alert.mk "a2" "yesterday" "auth" "api" "info" "latency" 10 10 "" ].

Definition scenario_processor : AlertProcessor.t :=
  AlertProcessor.mk "sample_alerts.json" scenario_alerts.

(** An alert stamped with a UTC suffix and one stamped without an offset. *)
Definition aware_and_naive : AlertProcessor.t :=
  AlertProcessor.mk "sample_alerts.json"
    [ Alert.mk "a1" "2024-01-01T00:00:00Z" "payment-processor" "db"
        "critical" "cpu" 95 50 "";
      Alert.mk "a2" "2024-01-01T00:00:00" "auth" "api" "info" "latency" 10 10 "" ].

(** An aware timestamp, a naive one and one that does not parse. *)
Definition aware_naive_unparsable : AlertProcessor.t :=
  AlertProcessor.mk "sample_alerts.json"
    [ Alert.mk "a1" "2024-01-01T00:00:00Z" "s" "c" "info" "m" 1 1 "";
      Alert.mk "a2" "2024-01-01T00:00:00" "s" "c" "info" "m" 1 1 "";
      Alert.mk "a3" "yesterday" "s" "c" "info" "m" 1 1 "" ].

(** A table standing for [datetime.fromisoformat] on timestamps of the
    first hours of 2024-01-01: midnight UTC, two o'clock at an offset of one
    hour (one o'clock UTC), two o'clock UTC, and no other string. *)
Definition hourly_fromisoformat (s : string) : option datetime :=
  if String.eqb s "2024-01-01T00:00:00+00:00"
  then Some (mk_datetime 63839664000000000 (Some 0%Z))
  else if String.eqb s "2024-01-01T02:00:00+01:00"
  then Some (mk_datetime 63839671200000000 (Some 3600000000%Z))
  else if String.eqb s "2024-01-01T02:00:00+00:00"
  then Some (mk_datetime 63839671200000000 (Some 0%Z))
  else None.

(** Three critical alerts at midnight, one o'clock and two o'clock UTC, and
    an info alert whose timestamp does not parse. *)
Definition hourly_alerts : AlertProcessor.t :=
  AlertProcessor.mk "sample_alerts.json"
    [ Alert.mk "h0" "2024-01-01T00:00:00Z" "payment-processor" "db"
        "critical" "cpu" 95 50 "";
      Alert.mk "h1" "2024-01-01T02:00:00+01:00" "payment-processor" "db"
        "critical" "cpu" 95 50 "";
      Alert.mk "h2" "2024-01-01T02:00:00Z" "payment-processor" "db"
        "critical" "cpu" 95 50 "";
      Alert.mk "h3" "yesterday" "auth" "api" "info" "latency" 10 10 "" ].

(** A table standing for [datetime.fromisoformat] on one more string: an
    offset written with seconds is accepted, and a [Z] followed by [:00] is
    not. *)
Definition offset_seconds_fromisoformat (s : string) : option datetime :=
  if String.eqb s "2024-01-01T00:00:00+00:00:00"
  then Some (mk_datetime 63839664000000000 (Some 0%Z))
  else None.

(** Four alerts of one component whose absolute deviations are
    [25 * 2^57], [256] and twice [100 * 2^-52]. *)
Definition drift_alerts : list Alert.t :=
  [ Alert.mk "b1" "2024-01-01T00:00:00Z" "s" "c" "critical" "m"
      36028797018963968 1 "";
    Alert.mk "b2" "2024-01-01T00:00:00Z" "s" "c" "warning" "m" 356 100 "";
    Alert.mk "b3" "2024-01-01T00:00:00Z" "s" "c" "info" "m"
      0x1.0000000000001p0 1 "";
    Alert.mk "b4" "2024-01-01T00:00:00Z" "s" "c" "info" "m"
      0x1.0000000000001p0 1 "" ].

(** * The properties *)

(** ** The alert model *)

(** C7. [get_deviation_percentage] returns exactly [0.0] whenever the
    threshold compares equal to zero, whatever the value; otherwise it
    returns [((value - threshold) / threshold) * 100]; in neither case does
    the division raise. *)
Theorem deviation_zero_threshold_safe (a : Alert.t) :
  (PrimFloat.eqb (Alert.threshold a) 0%float = true ->
     Alert.get_deviation_percentage a = Ok 0%float) /\
  (PrimFloat.eqb (Alert.threshold a) 0%float = false ->
     Alert.get_deviation_percentage a =
       Ok ((Alert.value a - Alert.threshold a) / Alert.threshold a * 100)%float) /\
  (forall e, Alert.get_deviation_percentage a <> Err e).
Proof.
  unfold Alert.get_deviation_percentage, truediv.
  destruct (PrimFloat.eqb (Alert.threshold a) 0%float) eqn:Hz; cbn.
  - repeat split; [discriminate | discriminate].
  - repeat split; [discriminate | discriminate].
Qed.

(** ** Grouping *)

Section Grouping.

Import AlertProcessor.

Lemma filter_elem_of {A : Type} (p : A -> bool) (l : list A) (x : A) :
  x ∈ List.filter p l <-> x ∈ l /\ p x = true.
Proof. rewrite !list_elem_of_In. apply filter_In. Qed.

Lemma first_appearance_elem_of {A : Type} `{EqDecision A} (l : list A) (x : A) :
  x ∈ first_appearance l <-> x ∈ l.
Proof.
  induction l as [|y l IH]; cbn.
  - reflexivity.
  - rewrite !elem_of_cons, filter_elem_of, IH.
    destruct (decide (x = y)) as [->|Hne].
    + tauto.
    + rewrite bool_decide_eq_false_2 by exact Hne. cbn. tauto.
Qed.

Lemma NoDup_filter_bool {A : Type} (p : A -> bool) (l : list A) :
  NoDup l -> NoDup (List.filter p l).
Proof.
  induction 1 as [|x l Hx Hl IH]; cbn.
  - constructor.
  - destruct (p x); [constructor|]; try exact IH.
    rewrite filter_elem_of. tauto.
Qed.

Lemma first_appearance_NoDup {A : Type} `{EqDecision A} (l : list A) :
  NoDup (first_appearance l).
Proof.
  induction l as [|y l IH]; cbn; constructor.
  - rewrite filter_elem_of, bool_decide_eq_true_2 by reflexivity.
    cbn. intros [_ ?]. discriminate.
  - apply NoDup_filter_bool, IH.
Qed.

Lemma first_appearance_snoc {A : Type} `{EqDecision A} (l : list A) (x : A) :
  first_appearance (l ++ [x]) =
  first_appearance l ++ (if decide (x ∈ l) then [] else [x]).
Proof.
  induction l as [|y l IH]; cbn.
  - reflexivity.
  - rewrite IH, List.filter_app. f_equal. f_equal.
    destruct (decide (x ∈ l)) as [Hin|Hnin].
    + rewrite decide_True by (right; exact Hin). reflexivity.
    + destruct (decide (x = y)) as [->|Hne].
      * rewrite decide_True by left. cbn.
        rewrite bool_decide_eq_true_2 by reflexivity. reflexivity.
      * rewrite decide_False by (rewrite elem_of_cons; tauto). cbn.
        rewrite bool_decide_eq_false_2 by exact Hne. reflexivity.
Qed.

Lemma dict_get_map (G : string * string -> AlertGroup.t) ks k :
  dict_get (map (fun k' => (k', G k')) ks) k =
  if decide (k ∈ ks) then Some (G k) else None.
Proof.
  induction ks as [|k' ks IH]; cbn.
  - reflexivity.
  - destruct (decide (k' = k)) as [->|Hne].
    + rewrite bool_decide_eq_true_2 by reflexivity.
      rewrite decide_True by left. reflexivity.
    + rewrite bool_decide_eq_false_2 by exact Hne. rewrite IH.
      destruct (decide (k ∈ ks)) as [Hin|Hnin].
      * rewrite decide_True by (right; exact Hin). reflexivity.
      * rewrite decide_False; [reflexivity|].
        rewrite elem_of_cons. intros [->|?]; tauto.
Qed.

Lemma dict_update_map f (G : string * string -> AlertGroup.t) ks k :
  NoDup ks ->
  dict_update f k (map (fun k' => (k', G k')) ks) =
  map (fun k' => (k', if bool_decide (k' = k) then f (G k') else G k')) ks.
Proof.
  induction 1 as [|k' ks Hk' Hks IH]; cbn.
  - reflexivity.
  - destruct (decide (k' = k)) as [->|Hne].
    + rewrite !bool_decide_eq_true_2 by reflexivity. f_equal.
      apply map_ext_in. intros k' Hin. apply list_elem_of_In in Hin.
      rewrite bool_decide_eq_false_2; [reflexivity|].
      intros ->. exact (Hk' Hin).
    + rewrite !bool_decide_eq_false_2 by exact Hne. rewrite IH. reflexivity.
Qed.

Lemma dict_update_app_r f k d d' :
  dict_get d k = None ->
  dict_update f k (d ++ d') = d ++ dict_update f k d'.
Proof.
  induction d as [|[k' g] d IH]; cbn.
  - reflexivity.
  - destruct (bool_decide (k' = k)); [discriminate|].
    intros Hd. rewrite (IH Hd). reflexivity.
Qed.

Lemma dict_update_id f k d :
  (forall g, dict_get d k = Some g -> f g = g) ->
  dict_update f k d = d.
Proof.
  induction d as [|[k' g] d IH]; cbn.
  - reflexivity.
  - destruct (bool_decide (k' = k)).
    + intros Hf. rewrite (Hf g eq_refl). reflexivity.
    + intros Hf. rewrite (IH Hf). reflexivity.
Qed.

Lemma tally_snoc field l a :
  tally field (l ++ [a]) =
  <[field a := default 0 (tally field l !! field a) + 1]> (tally field l).
Proof. unfold tally. rewrite fold_left_app. reflexivity. Qed.

Lemma members_snoc l a k :
  members (l ++ [a]) k =
  members l k ++ (if bool_decide (Alert.key a = k) then [a] else []).
Proof. unfold members. rewrite List.filter_app. reflexivity. Qed.

Lemma members_nil l k : k ∉ map Alert.key l -> members l k = [].
Proof.
  unfold members. induction l as [|a l IH]; cbn.
  - reflexivity.
  - rewrite not_elem_of_cons. intros [Hne Hnin].
    rewrite bool_decide_eq_false_2 by congruence. apply IH, Hnin.
Qed.

Lemma group_of_snoc l a k :
  group_of (l ++ [a]) k =
  if bool_decide (k = Alert.key a) then AlertGroup.add_alert (group_of l k) a
  else group_of l k.
Proof.
  unfold group_of. rewrite members_snoc.
  destruct (decide (k = Alert.key a)) as [->|Hne].
  - rewrite !bool_decide_eq_true_2 by reflexivity.
    unfold AlertGroup.add_alert. cbn. rewrite tally_snoc. reflexivity.
  - rewrite !bool_decide_eq_false_2 by congruence.
    rewrite app_nil_r. reflexivity.
Qed.

Lemma group_step_groups_of l a :
  group_step (groups_of l) a = groups_of (l ++ [a]).
Proof.
  unfold group_step, dict_getitem.
  change (Alert.service a, Alert.component a) with (Alert.key a).
  unfold groups_of at 1. rewrite dict_get_map.
  fold (groups_of l).
  unfold groups_of at 3. rewrite map_app. cbn [map].
  rewrite first_appearance_snoc, map_app.
  pose proof (first_appearance_NoDup (map Alert.key l)) as Hnd.
  destruct (decide (Alert.key a ∈ first_appearance (map Alert.key l)))
    as [Hin|Hnin].
  - rewrite decide_True by (apply first_appearance_elem_of; exact Hin).
    cbn [map]. rewrite app_nil_r.
    assert (Hd2 :
      (if String.eqb (AlertGroup.service (group_of l (Alert.key a))) ""
       then dict_update (AlertGroup.set_component (Alert.component a))
              (Alert.key a)
              (dict_update (AlertGroup.set_service (Alert.service a))
                 (Alert.key a) (groups_of l))
       else groups_of l) = groups_of l).
    { destruct (String.eqb _ _); [|reflexivity].
      rewrite (dict_update_id (AlertGroup.set_service _)).
      - apply dict_update_id. unfold groups_of. intros g.
        rewrite dict_get_map. case_decide; [|discriminate].
        intros [= <-]. reflexivity.
      - unfold groups_of. intros g.
        rewrite dict_get_map. case_decide; [|discriminate].
        intros [= <-]. reflexivity. }
    rewrite Hd2. unfold groups_of. rewrite dict_update_map by exact Hnd.
    apply map_ext. intros k. rewrite group_of_snoc. reflexivity.
  - rewrite decide_False by (rewrite <- first_appearance_elem_of; exact Hnin).
    cbn [AlertGroup.new AlertGroup.service String.eqb map].
    assert (Hget : dict_get (groups_of l) (Alert.key a) = None).
    { unfold groups_of. rewrite dict_get_map, decide_False by exact Hnin.
      reflexivity. }
    rewrite !dict_update_app_r by exact Hget.
    repeat (cbn [dict_update]; rewrite bool_decide_eq_true_2 by reflexivity).
    f_equal.
    + unfold groups_of. apply map_ext_in. intros k Hk.
      apply list_elem_of_In in Hk. rewrite group_of_snoc.
      rewrite bool_decide_eq_false_2; [reflexivity|].
      intros ->. exact (Hnin Hk).
    + rewrite group_of_snoc, bool_decide_eq_true_2 by reflexivity.
      unfold group_of. rewrite members_nil
        by (rewrite <- first_appearance_elem_of; exact Hnin).
      reflexivity.
Qed.

Lemma fold_group_step l : fold_left group_step l [] = groups_of l.
Proof.
  induction l as [|a l IH] using rev_ind.
  - reflexivity.
  - rewrite fold_left_app. cbn. rewrite IH. apply group_step_groups_of.
Qed.

Lemma dict_sum_incr (m : gmap string nat) (s : string) :
  dict_sum (<[s := default 0 (m !! s) + 1]> m) = dict_sum m + 1.
Proof.
  unfold dict_sum.
  destruct (m !! s) as [n|] eqn:Hs; cbn.
  - rewrite <- insert_delete_eq.
    rewrite map_fold_insert_L; [|intros; lia|apply lookup_delete_eq].
    rewrite (map_fold_delete_L _ _ s n m); [lia|intros; lia|exact Hs].
  - rewrite map_fold_insert_L; [lia|intros; lia|exact Hs].
Qed.

Lemma dict_sum_tally field l : dict_sum (tally field l) = length l.
Proof.
  induction l as [|a l IH] using rev_ind.
  - reflexivity.
  - rewrite tally_snoc, dict_sum_incr, IH, length_app. reflexivity.
Qed.

(** The tally is keyed by the raw value of the field: the count under [s]
    is the number of alerts whose field is literally [s]. *)
Lemma tally_lookup field l s :
  tally field l !! s =
  let n := length (List.filter (fun a => bool_decide (field a = s)) l) in
  if n is O then None else Some n.
Proof.
  induction l as [|a l IH] using rev_ind.
  - reflexivity.
  - rewrite tally_snoc, List.filter_app, length_app. cbn zeta in *.
    destruct (decide (field a = s)) as [<-|Hne].
    + rewrite lookup_insert_eq, IH. cbn.
      rewrite bool_decide_eq_true_2 by reflexivity. cbn.
      destruct (length _); cbn; f_equal; lia.
    + rewrite lookup_insert_ne by exact Hne. rewrite IH. cbn.
      rewrite bool_decide_eq_false_2 by exact Hne. cbn.
      rewrite Nat.add_0_r. reflexivity.
Qed.

Lemma add_alert_wf g a : group_wf g -> group_wf (AlertGroup.add_alert g a).
Proof.
  unfold group_wf, AlertGroup.add_alert. cbn. intros [Hlen Hsum].
  split; [reflexivity|].
  rewrite dict_sum_incr, Hsum, Hlen, length_app. reflexivity.
Qed.

Lemma group_of_wf l k : group_wf (group_of l k).
Proof. split; cbn; [reflexivity|apply dict_sum_tally]. Qed.

Lemma group_alerts_closed_form self l :
  group_alerts self (Some l) = map snd (groups_of l).
Proof. unfold group_alerts. rewrite fold_group_step. reflexivity. Qed.

Lemma elem_of_group_alerts self l g :
  g ∈ group_alerts self (Some l) <->
  exists k, k ∈ map Alert.key l /\ g = group_of l k.
Proof.
  rewrite group_alerts_closed_form. unfold groups_of.
  rewrite list_elem_of_In, map_map, in_map_iff. cbn.
  setoid_rewrite <- list_elem_of_In.
  setoid_rewrite first_appearance_elem_of.
  split; intros (k & H1 & H2); exists k; split; auto.
Qed.

Lemma list_sum_indicator (ks : list (string * string)) (x : string * string) :
  NoDup ks -> x ∈ ks ->
  list_sum (map (fun k => if bool_decide (x = k) then 1 else 0) ks) = 1.
Proof.
  induction 1 as [|k ks Hk Hks IH]; cbn.
  - intros Hx. inversion Hx.
  - rewrite elem_of_cons. intros [->|Hin].
    + rewrite bool_decide_eq_true_2 by reflexivity. f_equal.
      clear IH Hks. induction ks as [|k' ks IH]; cbn; [reflexivity|].
      rewrite not_elem_of_cons in Hk. destruct Hk as [Hne Hk].
      rewrite bool_decide_eq_false_2 by exact Hne. apply IH, Hk.
    + rewrite bool_decide_eq_false_2 by (intros ->; exact (Hk Hin)).
      apply IH, Hin.
Qed.

Lemma members_total (ks : list (string * string)) (l : list Alert.t) :
  NoDup ks -> (forall a, a ∈ l -> Alert.key a ∈ ks) ->
  list_sum (map (fun k => length (members l k)) ks) = length l.
Proof.
  intros Hnd. induction l as [|a l IH]; intros Hks.
  - cbn. clear Hnd Hks. induction ks; cbn; auto.
  - assert (Hsplit : forall k,
      length (members (a :: l) k) =
      (if bool_decide (Alert.key a = k) then 1 else 0) + length (members l k)).
    { intros k. unfold members. cbn. destruct (bool_decide _); reflexivity. }
    rewrite (map_ext _ _ Hsplit).
    assert (Hadd : forall (f g : string * string -> nat) ks',
      list_sum (map (fun k => f k + g k) ks') =
      list_sum (map f ks') + list_sum (map g ks')).
    { intros f g ks'. unfold list_sum.
      induction ks' as [|k ks' IH']; cbn; [reflexivity|].
      rewrite IH'. lia. }
    rewrite Hadd, list_sum_indicator, IH; cbn; auto.
    + intros a' Ha'. apply Hks. right. exact Ha'.
    + apply Hks. left.
Qed.

(** C2. After a grouping pass every alert of the input lies in exactly one
    group of the result, the group whose (service, component) is the
    alert's own, and the groups' [total_alerts] add up to the length of the
    input.  Without an argument the pass runs over the processor's own
    alerts. *)
Theorem group_alerts_partition (self : AlertProcessor.t) (l : list Alert.t) :
  (forall a, a ∈ l ->
     exists g, g ∈ group_alerts self (Some l) /\
       a ∈ AlertGroup.alerts g /\
       (AlertGroup.service g, AlertGroup.component g) = Alert.key a /\
       forall g', g' ∈ group_alerts self (Some l) ->
                  a ∈ AlertGroup.alerts g' -> g' = g) /\
  list_sum (map AlertGroup.total_alerts (group_alerts self (Some l))) = length l /\
  group_alerts self None = group_alerts self (Some (AlertProcessor.alerts self)).
Proof.
  split; [|split; [|reflexivity]].
  - intros a Ha. exists (group_of l (Alert.key a)).
    assert (Hmem : a ∈ members l (Alert.key a)).
    { apply filter_elem_of. split; [exact Ha|].
      apply bool_decide_eq_true_2. reflexivity. }
    repeat split.
    + apply elem_of_group_alerts. exists (Alert.key a). split; [|reflexivity].
      apply list_elem_of_In, in_map, list_elem_of_In, Ha.
    + exact Hmem.
    + intros g' Hg' Ha'. apply elem_of_group_alerts in Hg' as (k & _ & ->).
      cbn in Ha'. apply filter_elem_of in Ha' as [_ Hk].
      apply bool_decide_eq_true_1 in Hk. rewrite Hk. reflexivity.
  - rewrite group_alerts_closed_form. unfold groups_of.
    rewrite !map_map. cbn.
    apply members_total; [apply first_appearance_NoDup|].
    intros a Ha. apply first_appearance_elem_of.
    apply list_elem_of_In, in_map, list_elem_of_In, Ha.
Qed.

(** C4. The groups come out in the order in which their keys first appear
    in the input; the result is a function of the input list alone, so a
    second pass over the same list yields the same groups in the same
    order. *)
Theorem group_alerts_first_appearance_order
  (self self' : AlertProcessor.t) (l : list Alert.t) :
  map (fun g => (AlertGroup.service g, AlertGroup.component g))
    (group_alerts self (Some l)) = first_appearance (map Alert.key l) /\
  group_alerts self (Some l) = group_alerts self' (Some l).
Proof.
  split; [|reflexivity].
  rewrite group_alerts_closed_form. unfold groups_of. rewrite !map_map. cbn.
  induction (first_appearance (map Alert.key l)) as [|[s c] ks IH]; cbn.
  - reflexivity.
  - rewrite IH. reflexivity.
Qed.

(** C5. The group invariant: [total_alerts] is the length of [alerts] and
    the severity counts add up to it.  It holds of a fresh group, every
    [add_alert] preserves it and files the alert under its raw severity
    string, and it holds of every group of every grouping pass (the
    dictionary reached after any prefix of the input is the result of the
    pass over that prefix), where the count under a string [s] is the
    number of the group's alerts whose severity is literally [s]. *)
Theorem group_invariant :
  group_wf (AlertGroup.new "" "") /\
  (forall g a, group_wf g ->
     group_wf (AlertGroup.add_alert g a) /\
     AlertGroup.severity_counts (AlertGroup.add_alert g a) !! Alert.severity a =
       Some (default 0 (AlertGroup.severity_counts g !! Alert.severity a) + 1)) /\
  (forall self l g, g ∈ group_alerts self (Some l) ->
     group_wf g /\
     forall s, default 0 (AlertGroup.severity_counts g !! s) =
               length (List.filter
                         (fun a => bool_decide (Alert.severity a = s))
                         (AlertGroup.alerts g))).
Proof.
  split; [|split].
  - split; reflexivity.
  - intros g a Hg. split; [apply add_alert_wf, Hg|].
    cbn. apply lookup_insert_eq.
  - intros self l g Hg. apply elem_of_group_alerts in Hg as (k & _ & ->).
    split; [apply group_of_wf|].
    intros s. cbn. rewrite tally_lookup. cbn zeta.
    destruct (length _); reflexivity.
Qed.

End Grouping.

(** ** The priority score *)

Section Score.

Import AlertProcessor.

(** *** Floating-point multiplication commutes *)

Lemma SFmul_comm (x y : spec_float) : SFmul prec emax x y = SFmul prec emax y x.
Proof.
  destruct x as [sx|sx| |sx mx ex], y as [sy|sy| |sy my ey]; cbn;
    try reflexivity; try (rewrite xorb_comm; reflexivity).
  rewrite xorb_comm, Pos.mul_comm, Z.add_comm. reflexivity.
Qed.

Lemma float_mul_comm (x y : float) : (x * y = y * x)%float.
Proof.
  apply Prim2SF_inj. rewrite !mul_spec. apply SFmul_comm.
Qed.

(** *** The code computes the specification's score *)

Lemma get_deviation_percentage_ok (a : Alert.t) :
  Alert.get_deviation_percentage a = Ok (deviationPercent a).
Proof.
  unfold Alert.get_deviation_percentage, deviationPercent, truediv.
  destruct (PrimFloat.eqb (Alert.threshold a) 0%float); reflexivity.
Qed.

Lemma abs_deviations_ok (l : list Alert.t) :
  abs_deviations l = Ok (absDeviations l).
Proof.
  induction l as [|a l IH]; cbn.
  - reflexivity.
  - rewrite get_deviation_percentage_ok, IH. reflexivity.
Qed.

Lemma severity_step_weight (z : Z) (a : Alert.t) :
  severity_step z a = (z + catalog_weight (Alert.severity a))%Z.
Proof.
  unfold severity_step, find_level, catalog_weight, SeverityLevel.members.
  cbn [find SeverityLevel.label].
  rewrite (String.eqb_sym "critical"), (String.eqb_sym "warning"),
    (String.eqb_sym "info").
  destruct (String.eqb (Alert.severity a) "critical"); [reflexivity|].
  destruct (String.eqb (Alert.severity a) "warning"); [reflexivity|].
  destruct (String.eqb (Alert.severity a) "info"); [reflexivity|].
  rewrite Z.add_0_r. reflexivity.
Qed.

Lemma fold_severity_step (l : list Alert.t) (z : Z) :
  fold_left severity_step l z = (z + severityScore l)%Z.
Proof.
  revert z. induction l as [|a l IH]; intros z; cbn.
  - lia.
  - rewrite IH, severity_step_weight. unfold severityScore. lia.
Qed.

Lemma affected_components_distinct (l : list Alert.t) :
  get_affected_components_count l = affectedComponents l.
Proof.
  unfold get_affected_components_count, affectedComponents.
  rewrite <- (size_list_to_set (C := gset (string * string)))
    by apply NoDup_remove_dups.
  f_equal. apply set_eq. intros k.
  rewrite !elem_of_list_to_set, elem_of_remove_dups. reflexivity.
Qed.

(** The score of a non-empty list, with the factors in the order in which
    the code multiplies them. *)
Lemma calculate_incident_priority_cons (a : Alert.t) (l : list Alert.t) :
  calculate_incident_priority (a :: l) =
  Ok (float_of_int (severityScore (a :: l)) * 0.5
      + avgDeviation (a :: l) * 0.3
      + float_of_int (Z.of_nat (affectedComponents (a :: l))) * 0.2)%float.
Proof.
  unfold calculate_incident_priority.
  rewrite abs_deviations_ok. cbn [bind absDeviations map].
  change (PrimFloat.abs (deviationPercent a)
            :: map (fun a0 => PrimFloat.abs (deviationPercent a0)) l)
    with (absDeviations (a :: l)).
  unfold truediv_int.
  replace (length (absDeviations (a :: l))) with (length (a :: l))
    by (unfold absDeviations; rewrite length_map; reflexivity).
  cbn [length Z.of_nat Z.eqb bind].
  rewrite fold_severity_step, affected_components_distinct.
  unfold avgDeviation. cbn [length Z.of_nat Z.add].
  reflexivity.
Qed.

(** C1. The score of the empty list is [0.0]; the score of a non-empty list
    is [0.5*severityScore + 0.3*avgDeviation + 0.2*affectedComponents],
    with the severity score summed from the catalog weights under exact
    label match (no match counting 0), the average taken over the absolute
    deviations, and the components counted as distinct (service, component)
    pairs.  No step of the computation raises. *)
Theorem calculate_incident_priority_formula :
  calculate_incident_priority [] = Ok 0%float /\
  forall (a : Alert.t) (l : list Alert.t),
    calculate_incident_priority (a :: l) = Ok (score (a :: l)).
Proof.
  split; [reflexivity|]. intros a l.
  rewrite calculate_incident_priority_cons. unfold score.
  rewrite (float_mul_comm 0.5), (float_mul_comm 0.3), (float_mul_comm 0.2).
  reflexivity.
Qed.

(** *** The score and the order of its input *)

Lemma severityScore_perm (l l' : list Alert.t) :
  Permutation l l' -> severityScore l = severityScore l'.
Proof.
  unfold severityScore.
  induction 1 as [|a l l' _ IH|a b l|l l' l'' _ IH1 _ IH2]; cbn.
  - reflexivity.
  - rewrite IH. reflexivity.
  - lia.
  - rewrite IH1. exact IH2.
Qed.

Lemma affectedComponents_perm (l l' : list Alert.t) :
  Permutation l l' -> affectedComponents l = affectedComponents l'.
Proof.
  intros Hp. rewrite <- !affected_components_distinct.
  unfold get_affected_components_count. f_equal.
  apply list_to_set_perm_L, Permutation_map, Hp.
Qed.

(** C9, as stated, fails: the two orders of [drift_alerts] have different
    scores.  The deviations are [S = 25 * 2^57] (its neighbours are 512
    apart), [256] and twice [d = 100 * 2^-52].  From the left, [S + 256] is
    a tie that rounds back to [S], and each [d] is absorbed.  In reverse,
    [d + d] is more than half the spacing at 256, so [d + d + 256] rounds
    up, and adding [S] lands above the tie: the sum is [S + 512]. *)
Lemma score_depends_on_order :
  Permutation drift_alerts (rev drift_alerts) /\
  calculate_incident_priority drift_alerts = Ok 270215977642229760%float /\
  calculate_incident_priority (rev drift_alerts) = Ok 270215977642229792%float /\
  calculate_incident_priority drift_alerts <>
  calculate_incident_priority (rev drift_alerts).
Proof.
  split; [apply Permutation_rev|].
  assert (H1 : calculate_incident_priority drift_alerts
               = Ok 270215977642229760%float) by (vm_compute; reflexivity).
  assert (H2 : calculate_incident_priority (rev drift_alerts)
               = Ok 270215977642229792%float) by (vm_compute; reflexivity).
  split; [exact H1|]. split; [exact H2|].
  rewrite H1, H2. intros H.
  apply (f_equal (fun r => match r with
                           | Ok x => PrimFloat.eqb x 270215977642229760%float
                           | Err _ => false
                           end)) in H.
  vm_compute in H. discriminate H.
Qed.

(** The two orders of [drift_alerts] add up differently under plain and
    under compensated summation alike. *)
Example drift_sums :
  fsum (absDeviations drift_alerts) = 3602879701896396800%float /\
  fsum (absDeviations (rev drift_alerts)) = 3602879701896397312%float /\
  fsum_compensated (absDeviations drift_alerts) = 3602879701896396800%float /\
  fsum_compensated (absDeviations (rev drift_alerts)) = 3602879701896397312%float.
Proof. repeat split; vm_compute; reflexivity. Qed.

(** C9, amended.  A permutation of the input leaves the severity score, the
    number of affected components and the number of alerts unchanged, and
    it leaves the score unchanged whenever the left-to-right sum of the
    absolute deviations is the same for both orders. *)
Theorem calculate_incident_priority_permutation (l l' : list Alert.t) :
  Permutation l l' ->
  severityScore l = severityScore l' /\
  affectedComponents l = affectedComponents l' /\
  length l = length l' /\
  (fsum (absDeviations l) = fsum (absDeviations l') ->
   calculate_incident_priority l = calculate_incident_priority l').
Proof.
  intros Hp.
  pose proof (severityScore_perm l l' Hp) as Hsev.
  pose proof (affectedComponents_perm l l' Hp) as Haff.
  pose proof (Permutation_length Hp) as Hlen.
  repeat split; try assumption.
  intros Hsum.
  destruct l as [|a l], l' as [|a' l']; try discriminate Hlen;
    [reflexivity|].
  rewrite !calculate_incident_priority_cons.
  unfold avgDeviation. rewrite Hsev, Haff, Hlen, Hsum. reflexivity.
Qed.

End Score.

(** The scenario of the specification: swapping its two alerts does not
    change the score. *)
Lemma calculate_incident_priority_permutation_witness :
  Permutation scenario_alerts (rev scenario_alerts) /\
  fsum (absDeviations scenario_alerts) =
  fsum (absDeviations (rev scenario_alerts)) /\
  AlertProcessor.calculate_incident_priority scenario_alerts =
  AlertProcessor.calculate_incident_priority (rev scenario_alerts).
Proof.
  assert (Hp : Permutation scenario_alerts (rev scenario_alerts))
    by apply Permutation_rev.
  assert (Hs : fsum (absDeviations scenario_alerts) =
               fsum (absDeviations (rev scenario_alerts)))
    by (vm_compute; reflexivity).
  split; [exact Hp|]. split; [exact Hs|].
  exact (proj2 (proj2 (proj2
    (calculate_incident_priority_permutation _ _ Hp))) Hs).
Defined.

(** ** Filtering *)

(** *** List comprehensions whose condition may raise *)

Lemma filterM_filter {A : Type} (p : A -> bool) (c : A -> result bool)
  (l : list A) :
  filterM c (List.filter p l) =
  filterM (fun x => if p x then c x else Ok false) l.
Proof.
  induction l as [|x l IH]; cbn.
  - reflexivity.
  - destruct (p x); cbn; rewrite IH; [reflexivity|].
    destruct (filterM _ l); reflexivity.
Qed.

Lemma filterM_ok {A : Type} (c : A -> result bool) (l : list A) :
  (forall x, x ∈ l -> is_ok (c x) = true) ->
  filterM c l =
  Ok (List.filter (fun x => match c x with Ok b => b | Err _ => false end) l).
Proof.
  induction l as [|x l IH]; cbn; intros Hok.
  - reflexivity.
  - rewrite IH by (intros y Hy; apply Hok; right; exact Hy).
    specialize (Hok x ltac:(left)).
    destruct (c x) as [[|]|e]; cbn in *; [reflexivity|reflexivity|discriminate].
Qed.

(** An exception of the condition on some element ends the comprehension
    with an exception. *)
Lemma filterM_raises {A : Type} (c : A -> result bool) (l : list A) x e :
  x ∈ l -> c x = Err e -> exists e', filterM c l = Err e'.
Proof.
  induction l as [|y l IH]; cbn; intros Hx Hc.
  - inversion Hx.
  - apply elem_of_cons in Hx as [->|Hx].
    + rewrite Hc. eauto.
    + destruct (c y) as [b|e1]; cbn; [|eauto].
      destruct (IH Hx Hc) as [e' ->]. eauto.
Qed.

(** The exception that ends the comprehension is raised by the condition on
    one of the elements. *)
Lemma filterM_err_inv {A : Type} (c : A -> result bool) (l : list A) e :
  filterM c l = Err e -> exists x, x ∈ l /\ c x = Err e.
Proof.
  induction l as [|y l IH]; cbn.
  - discriminate.
  - destruct (c y) as [b|e1] eqn:Hy; cbn.
    + destruct (filterM c l) as [r|e2]; cbn; [discriminate|].
      intros [= ->]. destruct (IH eq_refl) as (x & Hx & Hc).
      exists x. split; [right; exact Hx|exact Hc].
    + intros [= ->]. exists y. split; [left|exact Hy].
Qed.

Section Filtering.

Variable lower : string -> string.
Variable fromisoformat : string -> option datetime.

Local Abbreviation filter_alerts := (AlertProcessor.filter_alerts lower fromisoformat).
Local Abbreviation get_datetime := (Alert.get_datetime fromisoformat).
Local Abbreviation recent := (AlertProcessor.recent fromisoformat).
Local Abbreviation matches_ci := (matches_ci lower).
Local Abbreviation satisfies_labels := (satisfies_labels lower).
Local Abbreviation satisfies := (satisfies lower fromisoformat).
Local Abbreviation pass_condition := (pass_condition lower fromisoformat).
Local Abbreviation parses_aware := (parses_aware fromisoformat).
Local Abbreviation within_window := (within_window fromisoformat).
Local Abbreviation selects := (selects lower fromisoformat).

(** *** The pipeline as one pass *)

Lemma filter_filter_bool {A : Type} (p q : A -> bool) (l : list A) :
  List.filter q (List.filter p l) = List.filter (fun x => p x && q x) l.
Proof.
  induction l as [|x l IH]; cbn; [reflexivity|].
  destruct (p x); cbn; [destruct (q x)|]; rewrite IH; reflexivity.
Qed.

Lemma filter_true {A : Type} (l : list A) : List.filter (fun _ => true) l = l.
Proof. induction l as [|x l IH]; cbn; [|rewrite IH]; reflexivity. Qed.

Lemma label_stage (c : option string) (field : Alert.t -> string)
  (l : list Alert.t) :
  match c with
  | Some s =>
      if str_truthy s
      then List.filter (fun alert => String.eqb (lower (field alert)) (lower s)) l
      else l
  | None => l
  end = List.filter (fun a => criterion (effective_label c) (matches_ci (field a))) l.
Proof.
  destruct c as [s|]; cbn; [destruct (str_truthy s); cbn|];
    try (symmetry; apply filter_true); reflexivity.
Qed.

(** Without an effective window the severity and service stages are the
    whole filter.  With one, the cutoff is computed once and the three
    stages amount to one pass in input order under [pass_condition]. *)
Lemma filter_alerts_one_pass self severity service window clock :
  filter_alerts self severity service window clock =
  match effective_window window with
  | Some m =>
      c <- cutoff clock m ;;
      filterM (pass_condition severity service c) (AlertProcessor.alerts self)
  | None =>
      Ok (List.filter
            (satisfies_labels (effective_label severity) (effective_label service))
            (AlertProcessor.alerts self))
  end.
Proof.
  unfold AlertProcessor.filter_alerts.
  rewrite (label_stage severity Alert.severity).
  rewrite (label_stage service Alert.service).
  rewrite filter_filter_bool.
  fold (satisfies_labels (effective_label severity) (effective_label service)).
  unfold effective_window.
  destruct window as [m|]; [destruct (m =? 0)%Z|]; cbn [negb];
    try reflexivity.
  fold (cutoff clock m). destruct (cutoff clock m) as [c|e]; cbn [bind];
    [|reflexivity].
  apply filterM_filter.
Qed.

Lemma cutoff_aware clock m c : cutoff clock m = Ok c -> is_Some (utcoffset c).
Proof.
  unfold cutoff, datetime_sub.
  destruct (timedelta_minutes m) as [td|e]; cbn; [|discriminate].
  destruct (_ && _); [|discriminate].
  intros [= <-]. eexists. reflexivity.
Qed.

Lemma cutoff_err clock m e : cutoff clock m = Err e -> e = OverflowError.
Proof.
  unfold cutoff, datetime_sub, timedelta_minutes.
  destruct (_ && _); cbn; [|intros [= <-]; reflexivity].
  destruct (_ && _); [discriminate|intros [= <-]; reflexivity].
Qed.

Lemma recent_parses_aware (c : datetime) (a : Alert.t) :
  is_Some (utcoffset c) -> parses_aware a -> is_ok (recent c a) = true.
Proof.
  intros [oc Hc] (d & Hd & [od Hod]).
  unfold AlertProcessor.recent, dt_ge, dt_cmp. rewrite Hd. cbn.
  rewrite Hod, Hc. reflexivity.
Qed.

(** The cutoff that the program computes denotes the clock reading minus
    the window. *)
Lemma cutoff_instant_eq clock m c :
  cutoff clock m = Ok c -> instant c = cutoff_instant clock m.
Proof.
  unfold cutoff, timedelta_minutes, datetime_sub.
  destruct (_ && _); cbn; [|discriminate].
  destruct (_ && _); [|discriminate].
  intros [= <-]. unfold instant, cutoff_instant. cbn. lia.
Qed.

(** On aware datetimes the window test compares UTC instants, and keeps an
    alert stamped exactly at the cutoff. *)
Lemma recent_instants (c : datetime) (a : Alert.t) (d : datetime) :
  is_Some (utcoffset c) -> get_datetime a = Ok d -> is_Some (utcoffset d) ->
  recent c a = Ok (instant c <=? instant d)%Z.
Proof.
  intros [oc Hc] Hd [od Hod].
  unfold AlertProcessor.recent, dt_ge, dt_cmp, instant.
  rewrite Hd. cbn. rewrite Hod, Hc. cbn. rewrite Z.geb_leb. reflexivity.
Qed.

(** C3, amended.  Provided that, when a window takes effect, the cutoff is
    an instant that [datetime] represents and the alerts that pass the
    severity and service criteria carry timestamps that parse to
    timezone-aware datetimes, [filter_alerts] returns, in input order,
    exactly the alerts that satisfy the conjunction of the criteria that
    take effect: severity and service match case-insensitively, and the UTC
    instant of the parsed time is greater than or equal to the clock reading
    minus the window.  A criterion that is omitted, an empty string, or a
    window of zero minutes imposes no constraint; with no criteria the input
    comes back unchanged. *)
Theorem filter_alerts_conjunction self severity service window clock :
  (forall m, effective_window window = Some m ->
     is_ok (cutoff clock m) = true /\
     forall a, a ∈ AlertProcessor.alerts self ->
       satisfies_labels (effective_label severity) (effective_label service) a
         = true ->
       parses_aware a) ->
  filter_alerts self severity service window clock =
    Ok (List.filter
          (selects (effective_label severity) (effective_label service)
             (effective_window window) clock)
          (AlertProcessor.alerts self)) /\
  filter_alerts self None None None clock = Ok (AlertProcessor.alerts self).
Proof.
  intros Hwin. split; [|reflexivity].
  rewrite filter_alerts_one_pass.
  destruct (effective_window window) as [m|] eqn:Hw.
  - destruct (Hwin m eq_refl) as [Hcut Hparse].
    destruct (cutoff clock m) as [c|e] eqn:Hc; [|discriminate Hcut].
    cbn [bind]. rewrite filterM_ok.
    + f_equal. apply filter_ext_in. intros a Ha.
      apply list_elem_of_In in Ha.
      unfold selects, pass_condition. cbn [criterion].
      destruct (satisfies_labels _ _ a) eqn:Hlab; [|reflexivity].
      destruct (Hparse a Ha Hlab) as (d & Hd & Haw).
      rewrite (recent_instants c a d (cutoff_aware _ _ _ Hc) Hd Haw).
      unfold within_window. rewrite Hd, (cutoff_instant_eq _ _ _ Hc).
      reflexivity.
    + intros a Ha. unfold pass_condition.
      destruct (satisfies_labels _ _ a) eqn:Hlab; [|reflexivity].
      apply recent_parses_aware; [exact (cutoff_aware _ _ _ Hc)|].
      exact (Hparse a Ha Hlab).
  - f_equal. apply filter_ext. intros a. unfold selects. cbn [criterion].
    rewrite andb_true_r. reflexivity.
Qed.

End Filtering.

(** C3, as stated, fails: an empty severity string is a supplied criterion
    that no alert of [one_critical] matches, yet the alert is returned. *)
Lemma empty_severity_keeps_everything :
  AlertProcessor.filter_alerts ascii_lower sample_fromisoformat one_critical
    (Some "") None None 0 = Ok (AlertProcessor.alerts one_critical) /\
  List.filter
    (selects ascii_lower sample_fromisoformat (Some "") None None 0)
    (AlertProcessor.alerts one_critical) = [].
Proof. split; reflexivity. Qed.

(** At three o'clock UTC, the critical alerts of the last two hours of
    [hourly_alerts]: the cutoff is one o'clock UTC.  The alert of midnight
    is dropped; the alert stamped two o'clock at an offset of one hour is
    exactly at the cutoff and is kept, as is the alert of two o'clock UTC;
    the info alert is dropped on its severity before its timestamp is
    parsed. *)
Lemma filter_alerts_conjunction_witness :
  is_ok (cutoff 63839674800000000 120) = true /\
  cutoff_instant 63839674800000000 120 = 63839667600000000%Z /\
  AlertProcessor.filter_alerts ascii_lower hourly_fromisoformat hourly_alerts
    (Some "CRITICAL") None (Some 120%Z) 63839674800000000 =
  Ok [ Alert.mk "h1" "2024-01-01T02:00:00+01:00" "payment-processor" "db"
         "critical" "cpu" 95 50 "";
       Alert.mk "h2" "2024-01-01T02:00:00Z" "payment-processor" "db"
         "critical" "cpu" 95 50 "" ].
Proof.
  split; [reflexivity|]. split; [reflexivity|].
  refine (eq_trans (proj1 (filter_alerts_conjunction ascii_lower
    hourly_fromisoformat hourly_alerts (Some "CRITICAL") None (Some 120%Z)
    63839674800000000 _)) _).
  - intros m Hm. injection Hm as <-. split; [reflexivity|].
    intros a Ha Hlab.
    repeat (apply elem_of_cons in Ha as [->|Ha];
            [first [discriminate Hlab
                   |eexists; split; [reflexivity|]; eexists; reflexivity]|]).
    inversion Ha.
  - reflexivity.
Defined.

(** C10. A severity or service that is the empty string and a window of
    zero minutes behave as if the criterion were omitted.  With a window of
    zero minutes the call cannot raise and its result does not depend on
    how timestamps parse: none is looked at. *)
Theorem falsy_criteria_are_omitted
  (lower : string -> string) (fromisoformat fromisoformat' : string -> option datetime)
  (self : AlertProcessor.t) (severity service : option string)
  (window : option Z) (clock : Z) :
  AlertProcessor.filter_alerts lower fromisoformat self (Some "") service window clock =
  AlertProcessor.filter_alerts lower fromisoformat self None service window clock /\
  AlertProcessor.filter_alerts lower fromisoformat self severity (Some "") window clock =
  AlertProcessor.filter_alerts lower fromisoformat self severity None window clock /\
  AlertProcessor.filter_alerts lower fromisoformat self severity service (Some 0%Z) clock =
  AlertProcessor.filter_alerts lower fromisoformat self severity service None clock /\
  AlertProcessor.filter_alerts lower fromisoformat self severity service (Some 0%Z) clock =
  AlertProcessor.filter_alerts lower fromisoformat' self severity service (Some 0%Z) clock /\
  exists l,
    AlertProcessor.filter_alerts lower fromisoformat self severity service (Some 0%Z) clock
    = Ok l.
Proof.
  split; [reflexivity|]. split; [reflexivity|]. split; [reflexivity|].
  split; [reflexivity|].
  unfold AlertProcessor.filter_alerts. cbn [Z.eqb negb]. eexists. reflexivity.
Qed.
(** ** Timestamps that do not parse *)

Section Errors.

Variable lower : string -> string.
Variable fromisoformat : string -> option datetime.
Variable isoformat : datetime -> string.

Local Abbreviation filter_alerts := (AlertProcessor.filter_alerts lower fromisoformat).
Local Abbreviation get_datetime := (Alert.get_datetime fromisoformat).
Local Abbreviation recent := (AlertProcessor.recent fromisoformat).
Local Abbreviation extreme := (AlertProcessor.extreme fromisoformat).
Local Abbreviation extreme_loop := (AlertProcessor.extreme_loop fromisoformat).
Local Abbreviation get_alert_summary :=
  (AlertProcessor.get_alert_summary fromisoformat isoformat).
Local Abbreviation timestamps_aware := (timestamps_aware fromisoformat).
Local Abbreviation parses_aware := (parses_aware fromisoformat).
Local Abbreviation parsedTime := (parsedTime fromisoformat).
Local Abbreviation parsed_times_aware := (parsed_times_aware fromisoformat).

Lemma replace_Z_suffix (s : string) :
  inner_Z_free s = true ->
  replace_char "Z"%char "+00:00" s = z_suffix_normal s.
Proof.
  induction s as [|c s IH]; [reflexivity|].
  destruct s as [|c' s].
  - intros _. cbn. destruct (Ascii.eqb c "Z"%char); reflexivity.
  - cbn [inner_Z_free]. intros H. apply andb_true_iff in H as [Hc Hs].
    apply negb_true_iff in Hc.
    cbn [replace_char z_suffix_normal] in *. rewrite Hc.
    rewrite (IH Hs). reflexivity.
Qed.

Lemma get_datetime_err (a : Alert.t) (e : exn) :
  get_datetime a = Err e -> e = ValueError.
Proof.
  unfold Alert.get_datetime. destruct (fromisoformat _); [discriminate|].
  intros [= <-]. reflexivity.
Qed.

Lemma dt_cmp_err op x y e : dt_cmp op x y = Err e -> e = TypeError.
Proof.
  unfold dt_cmp. destruct (utcoffset x), (utcoffset y); try discriminate;
    intros [= <-]; reflexivity.
Qed.

Lemma dt_cmp_aware op x y :
  is_Some (utcoffset x) -> is_Some (utcoffset y) ->
  exists b, dt_cmp op x y = Ok b.
Proof.
  intros [ox Hx] [oy Hy]. unfold dt_cmp. rewrite Hx, Hy. eauto.
Qed.

Lemma recent_value_error (c : datetime) (a : Alert.t) :
  recent c a = Err ValueError <-> get_datetime a = Err ValueError.
Proof.
  unfold AlertProcessor.recent. split.
  - destruct (get_datetime a) as [d|e] eqn:Hd; cbn.
    + intros H. apply dt_cmp_err in H. discriminate H.
    + intros [= ->]. reflexivity.
  - intros ->. reflexivity.
Qed.

(** *** The passes of [min] and [max] *)

Lemma extreme_loop_raises better best l a e :
  a ∈ l -> get_datetime a = Err e ->
  exists e', extreme_loop better best l = Err e'.
Proof.
  revert best. induction l as [|y l IH]; intros best Ha Hbad.
  - inversion Ha.
  - cbn. apply elem_of_cons in Ha as [->|Ha].
    + rewrite Hbad. cbn. eauto.
    + destruct (get_datetime y) as [d|e1]; cbn; [|eauto].
      destruct (better d best) as [b|e2]; cbn; [|eauto].
      apply IH; assumption.
Qed.

Lemma extreme_raises better l a e :
  a ∈ l -> get_datetime a = Err e -> exists e', extreme better l = Err e'.
Proof.
  destruct l as [|y l]; intros Ha Hbad.
  - inversion Ha.
  - cbn. apply elem_of_cons in Ha as [->|Ha].
    + rewrite Hbad. cbn. eauto.
    + destruct (get_datetime y) as [d|e1]; cbn; [|eauto].
      eapply extreme_loop_raises; eassumption.
Qed.

Lemma extreme_loop_value_error op best l :
  extreme_loop (dt_cmp op) best l = Err ValueError ->
  exists a, a ∈ l /\ get_datetime a = Err ValueError.
Proof.
  revert best. induction l as [|y l IH]; intros best; cbn.
  - discriminate.
  - destruct (get_datetime y) as [d|e1] eqn:Hy; cbn.
    + destruct (dt_cmp op d best) as [b|e2] eqn:Hc; cbn.
      * intros H. destruct (IH _ H) as (a & Ha & Hbad).
        exists a. split; [right; exact Ha|exact Hbad].
      * intros [= ->]. apply dt_cmp_err in Hc. discriminate Hc.
    + intros [= ->]. exists y. split; [left|exact Hy].
Qed.

Lemma extreme_value_error op y l :
  extreme (dt_cmp op) (y :: l) = Err ValueError ->
  exists a, a ∈ y :: l /\ get_datetime a = Err ValueError.
Proof.
  cbn. destruct (get_datetime y) as [d|e1] eqn:Hy; cbn.
  - intros H. destruct (extreme_loop_value_error _ _ _ H) as (a & Ha & Hbad).
    exists a. split; [right; exact Ha|exact Hbad].
  - intros [= ->]. exists y. split; [left|exact Hy].
Qed.

Lemma extreme_loop_aware op best l :
  timestamps_aware l -> is_Some (utcoffset best) ->
  (exists a, a ∈ l /\ get_datetime a = Err ValueError) ->
  extreme_loop (dt_cmp op) best l = Err ValueError.
Proof.
  revert best. induction l as [|y l IH]; intros best Haw Hbest (a & Ha & Hbad).
  - inversion Ha.
  - cbn. destruct (get_datetime y) as [d|e1] eqn:Hy; cbn.
    + assert (Hd : is_Some (utcoffset d)) by (apply (Haw y d); [left|exact Hy]).
      destruct (dt_cmp_aware op d best Hd Hbest) as [b ->]. cbn.
      apply IH.
      * intros a' d' Ha' Hd'. apply (Haw a' d'); [right; exact Ha'|exact Hd'].
      * destruct b; assumption.
      * apply elem_of_cons in Ha as [->|Ha]; [congruence|eauto].
    + rewrite (get_datetime_err _ _ Hy). reflexivity.
Qed.

Lemma extreme_aware op l :
  timestamps_aware l ->
  (exists a, a ∈ l /\ get_datetime a = Err ValueError) ->
  extreme (dt_cmp op) l = Err ValueError.
Proof.
  destruct l as [|y l]; intros Haw (a & Ha & Hbad).
  - inversion Ha.
  - cbn. destruct (get_datetime y) as [d|e1] eqn:Hy; cbn.
    + apply extreme_loop_aware.
      * intros a' d' Ha' Hd'. apply (Haw a' d'); [right; exact Ha'|exact Hd'].
      * apply (Haw y d); [left|exact Hy].
      * apply elem_of_cons in Ha as [->|Ha]; [congruence|eauto].
    + rewrite (get_datetime_err _ _ Hy). reflexivity.
Qed.

Lemma pass_condition_value_error severity service c a :
  pass_condition lower fromisoformat severity service c a = Err ValueError ->
  satisfies_labels lower (effective_label severity) (effective_label service) a
    = true /\
  get_datetime a = Err ValueError.
Proof.
  unfold pass_condition.
  destruct (satisfies_labels _ _ _ a); [|discriminate].
  intros H. split; [reflexivity|]. apply (recent_value_error c), H.
Qed.

Lemma pass_condition_aware severity service c a e :
  is_Some (utcoffset c) ->
  (forall d, get_datetime a = Ok d -> is_Some (utcoffset d)) ->
  pass_condition lower fromisoformat severity service c a = Err e ->
  e = ValueError.
Proof.
  unfold pass_condition, AlertProcessor.recent, dt_ge.
  intros Hc Haw. destruct (satisfies_labels _ _ _ a); [|discriminate].
  destruct (get_datetime a) as [d|e1] eqn:Hd; cbn.
  - destruct (dt_cmp_aware Z.geb d c) as [b ->];
      [apply Haw; reflexivity|exact Hc|discriminate].
  - intros [= <-]. apply (get_datetime_err _ _ Hd).
Qed.

(** An alert whose timestamp does not parse makes the summary raise, and
    a filter whose window takes effect when the alert passes the severity
    and service criteria; the exception is [ValueError] when the timestamps
    that parse are aware and the cutoff is representable.  Neither raises
    [ValueError] when the timestamps it reads all parse. *)
Lemma value_error_propagation self severity service window clock :
  (forall a, a ∈ AlertProcessor.alerts self -> get_datetime a = Err ValueError ->
     (exists e, get_alert_summary self = Err e) /\
     (timestamps_aware (AlertProcessor.alerts self) ->
      get_alert_summary self = Err ValueError) /\
     (forall m, effective_window window = Some m ->
      satisfies_labels lower (effective_label severity) (effective_label service) a
        = true ->
      (exists e, filter_alerts self severity service window clock = Err e) /\
      (is_ok (cutoff clock m) = true ->
       timestamps_aware (AlertProcessor.alerts self) ->
       filter_alerts self severity service window clock = Err ValueError))) /\
  ((forall a, a ∈ AlertProcessor.alerts self -> is_ok (get_datetime a) = true) ->
   get_alert_summary self <> Err ValueError) /\
  ((forall a, a ∈ AlertProcessor.alerts self ->
      satisfies_labels lower (effective_label severity) (effective_label service) a
        = true ->
      is_ok (get_datetime a) = true) ->
   filter_alerts self severity service window clock <> Err ValueError).
Proof.
  split; [|split].
  - intros a Ha Hbad.
    assert (Hsum : forall e,
      extreme dt_lt (AlertProcessor.alerts self) = Err e ->
      get_alert_summary self = Err e).
    { intros e He. unfold AlertProcessor.get_alert_summary.
      destruct (AlertProcessor.alerts self); [inversion Ha|].
      rewrite He. reflexivity. }
    split; [|split].
    + destruct (extreme_raises dt_lt _ a _ Ha Hbad) as [e He]. eauto.
    + intros Haw. apply Hsum. apply extreme_aware; eauto.
    + intros m Hm Hlab. rewrite filter_alerts_one_pass, Hm.
      destruct (cutoff clock m) as [c|e0] eqn:Hc; cbn [bind];
        [|split; [eauto|discriminate]].
      assert (Hcond : pass_condition lower fromisoformat severity service c a
                      = Err ValueError).
      { unfold pass_condition. rewrite Hlab.
        apply recent_value_error, Hbad. }
      destruct (filterM_raises _ _ a _ Ha Hcond) as [e He].
      split; [eauto|]. intros _ Haw. rewrite He. f_equal.
      apply filterM_err_inv in He as (x & Hx & Hcx).
      apply (pass_condition_aware severity service c x);
        [exact (cutoff_aware _ _ _ Hc)| |exact Hcx].
      intros d Hd. exact (Haw x d Hx Hd).
  - intros Hok Herr. unfold AlertProcessor.get_alert_summary in Herr.
    destruct (AlertProcessor.alerts self) as [|y l] eqn:Hl; [discriminate|].
    assert (Hno : forall op, extreme (dt_cmp op) (y :: l) <> Err ValueError).
    { intros op H. apply extreme_value_error in H as (a & Ha & Hbad).
      specialize (Hok a Ha). rewrite Hbad in Hok. discriminate Hok. }
    destruct (extreme dt_lt (y :: l)) as [d1|e1] eqn:H1; cbn [bind] in Herr.
    + destruct (extreme dt_gt (y :: l)) as [d2|e2] eqn:H2; cbn [bind] in Herr;
        [discriminate|].
      injection Herr as ->. exact (Hno Z.gtb H2).
    + injection Herr as ->. exact (Hno Z.ltb H1).
  - intros Hok Herr. rewrite filter_alerts_one_pass in Herr.
    destruct (effective_window window) as [m|]; [|discriminate].
    destruct (cutoff clock m) as [c|e0] eqn:Hc; cbn [bind] in Herr.
    + apply filterM_err_inv in Herr as (x & Hx & Hcx).
      apply pass_condition_value_error in Hcx as [Hlab Hbad].
      specialize (Hok x Hx Hlab). rewrite Hbad in Hok. discriminate Hok.
    + injection Herr as ->. apply cutoff_err in Hc. discriminate Hc.
Qed.

(** *** Timestamps with [Z] as a suffix only *)

(** With no [Z] before the last character, the accessor returns what the
    parser makes of the timestamp with its [Z] suffix read as [+00:00], and
    raises [ValueError] when the parser rejects it. *)
Lemma get_datetime_parsedTime (a : Alert.t) :
  inner_Z_free (Alert.timestamp a) = true ->
  get_datetime a =
  match parsedTime a with Some d => Ok d | None => Err ValueError end.
Proof.
  intros Hz. unfold Alert.get_datetime, parsedTime.
  cbn zeta. rewrite (replace_Z_suffix _ Hz). reflexivity.
Qed.

Lemma parsedTime_parses_aware (a : Alert.t) :
  inner_Z_free (Alert.timestamp a) = true ->
  (exists d, parsedTime a = Some d /\ is_Some (utcoffset d)) ->
  parses_aware a.
Proof.
  intros Hz (d & Hd & Haw). exists d. split; [|exact Haw].
  rewrite (get_datetime_parsedTime a Hz), Hd. reflexivity.
Qed.

Lemma parsed_times_timestamps_aware (l : list Alert.t) :
  z_only_as_suffix l -> parsed_times_aware l -> timestamps_aware l.
Proof.
  intros Hz Haw a d Ha Hd. apply (Haw a d Ha).
  rewrite (get_datetime_parsedTime a (Hz a Ha)) in Hd.
  destruct (parsedTime a); [injection Hd as ->; reflexivity|discriminate Hd].
Qed.

(** *** The operations return on timestamps that parse to aware datetimes *)

Lemma extreme_loop_returns op best l :
  is_Some (utcoffset best) -> (forall a, a ∈ l -> parses_aware a) ->
  exists d, extreme_loop (dt_cmp op) best l = Ok d.
Proof.
  revert best. induction l as [|y l IH]; intros best Hbest Hall.
  - exists best. reflexivity.
  - destruct (Hall y ltac:(left)) as (d & Hd & Haw).
    cbn. rewrite Hd. cbn.
    destruct (dt_cmp_aware op d best Haw Hbest) as [b ->]. cbn.
    apply IH; [destruct b; assumption|].
    intros a Ha. apply Hall. right. exact Ha.
Qed.

Lemma extreme_returns op y l :
  (forall a, a ∈ y :: l -> parses_aware a) ->
  exists d, extreme (dt_cmp op) (y :: l) = Ok d.
Proof.
  intros Hall. destruct (Hall y ltac:(left)) as (d & Hd & Haw).
  cbn. rewrite Hd. cbn. apply extreme_loop_returns; [exact Haw|].
  intros a Ha. apply Hall. right. exact Ha.
Qed.

Lemma get_alert_summary_returns self :
  (forall a, a ∈ AlertProcessor.alerts self -> parses_aware a) ->
  exists m, get_alert_summary self = Ok m /\
    m !! "total_alerts" =
      Some (AlertProcessor.VInt (length (AlertProcessor.alerts self))).
Proof.
  intros Hall. unfold AlertProcessor.get_alert_summary.
  destruct (AlertProcessor.alerts self) as [|y l] eqn:Hl.
  - eexists. split; [reflexivity|]. apply lookup_singleton_eq.
  - destruct (extreme_returns Z.ltb y l Hall) as [d1 H1].
    destruct (extreme_returns Z.gtb y l Hall) as [d2 H2].
    unfold dt_lt, dt_gt. rewrite H1, H2. cbn [bind].
    eexists. split; [reflexivity|]. apply lookup_insert_eq.
Qed.

Lemma filter_alerts_returns self severity service window clock :
  filter_returns lower fromisoformat self severity service window clock ->
  exists r, filter_alerts self severity service window clock = Ok r.
Proof.
  intros Hwin. rewrite filter_alerts_one_pass.
  destruct (effective_window window) as [m|] eqn:Hw; [|eauto].
  destruct (Hwin m Hw) as [Hcut Hparse].
  destruct (cutoff clock m) as [c|e] eqn:Hc; [|discriminate Hcut].
  cbn [bind]. rewrite filterM_ok; [eauto|].
  intros a Ha. unfold pass_condition.
  destruct (satisfies_labels _ _ _ a) eqn:Hlab; [|reflexivity].
  apply recent_parses_aware; [exact (cutoff_aware _ _ _ Hc)|].
  exact (Hparse a Ha Hlab).
Qed.

(** C6, amended.  Take a collection in which no timestamp has a [Z] before
    its last character, and read "not valid ISO-8601" as: the parser rejects
    the timestamp with its [Z] suffix replaced by [+00:00].  Then
    [get_datetime] returns what the parser returns and raises [ValueError]
    exactly when the parser rejects.  The summary of a collection that holds
    a rejected timestamp raises, and so does a filter whose window takes
    effect when the alert passes the severity and service criteria: the
    alert is never silently dropped.  The exception is that [ValueError]
    whenever the timestamps that the parser accepts are timezone-aware and
    the cutoff is representable; otherwise the comparison of a naive with an
    aware datetime ([TypeError]) or the computation of the cutoff
    ([OverflowError]) may raise first.  Conversely, neither operation raises
    [ValueError] when the parser accepts the timestamps it reads, and both
    return when it parses them to timezone-aware datetimes (and the cutoff
    is representable). *)
Theorem parse_error_propagates self severity service window clock :
  z_only_as_suffix (AlertProcessor.alerts self) ->
  (forall a, a ∈ AlertProcessor.alerts self ->
     get_datetime a =
     match parsedTime a with Some d => Ok d | None => Err ValueError end) /\
  (forall a, a ∈ AlertProcessor.alerts self -> parsedTime a = None ->
     (exists e, get_alert_summary self = Err e) /\
     (parsed_times_aware (AlertProcessor.alerts self) ->
      get_alert_summary self = Err ValueError) /\
     (forall m, effective_window window = Some m ->
      satisfies_labels lower (effective_label severity) (effective_label service) a
        = true ->
      (exists e, filter_alerts self severity service window clock = Err e) /\
      (is_ok (cutoff clock m) = true ->
       parsed_times_aware (AlertProcessor.alerts self) ->
       filter_alerts self severity service window clock = Err ValueError))) /\
  ((forall a, a ∈ AlertProcessor.alerts self -> parsedTime a <> None) ->
   get_alert_summary self <> Err ValueError) /\
  ((forall a, a ∈ AlertProcessor.alerts self ->
      satisfies_labels lower (effective_label severity) (effective_label service) a
        = true ->
      parsedTime a <> None) ->
   filter_alerts self severity service window clock <> Err ValueError) /\
  ((forall a, a ∈ AlertProcessor.alerts self ->
      exists d, parsedTime a = Some d /\ is_Some (utcoffset d)) ->
   exists m, get_alert_summary self = Ok m /\
     m !! "total_alerts" =
       Some (AlertProcessor.VInt (length (AlertProcessor.alerts self)))) /\
  ((forall m, effective_window window = Some m ->
      is_ok (cutoff clock m) = true /\
      forall a, a ∈ AlertProcessor.alerts self ->
        satisfies_labels lower (effective_label severity) (effective_label service) a
          = true ->
        exists d, parsedTime a = Some d /\ is_Some (utcoffset d)) ->
   exists r, filter_alerts self severity service window clock = Ok r).
Proof.
  intros Hz.
  destruct (value_error_propagation self severity service window clock)
    as (Hbad & Hsum & Hfil).
  assert (Hget : forall a, a ∈ AlertProcessor.alerts self ->
    get_datetime a =
    match parsedTime a with Some d => Ok d | None => Err ValueError end).
  { intros a Ha. exact (get_datetime_parsedTime a (Hz a Ha)). }
  assert (Hok : forall a, a ∈ AlertProcessor.alerts self ->
    parsedTime a <> None -> is_ok (get_datetime a) = true).
  { intros a Ha Hp. rewrite (Hget a Ha).
    destruct (parsedTime a); [reflexivity|congruence]. }
  split; [exact Hget|]. split; [|split; [|split; [|split]]].
  - intros a Ha Hnone.
    assert (Herr : get_datetime a = Err ValueError).
    { rewrite (Hget a Ha), Hnone. reflexivity. }
    destruct (Hbad a Ha Herr) as (H1 & H2 & H3).
    split; [exact H1|]. split.
    + intros Haw. apply H2.
      exact (parsed_times_timestamps_aware _ Hz Haw).
    + intros m Hm Hlab. destruct (H3 m Hm Hlab) as [H4 H5].
      split; [exact H4|]. intros Hcut Haw. apply (H5 Hcut).
      exact (parsed_times_timestamps_aware _ Hz Haw).
  - intros Hall. apply Hsum. intros a Ha. exact (Hok a Ha (Hall a Ha)).
  - intros Hall. apply Hfil. intros a Ha Hlab.
    exact (Hok a Ha (Hall a Ha Hlab)).
  - intros Hall. apply get_alert_summary_returns. intros a Ha.
    exact (parsedTime_parses_aware a (Hz a Ha) (Hall a Ha)).
  - intros Hall. apply filter_alerts_returns. intros m Hm.
    destruct (Hall m Hm) as [Hcut Hp]. split; [exact Hcut|].
    intros a Ha Hlab.
    exact (parsedTime_parses_aware a (Hz a Ha) (Hp a Ha Hlab)).
Qed.

(** C8. The summary of an empty collection is the dictionary whose only
    key is ["total_alerts"], bound to 0: no distribution and no time range
    is present, and nothing is raised. *)
Theorem get_alert_summary_empty (file_path : string) :
  get_alert_summary (AlertProcessor.mk file_path []) =
    Ok {[ "total_alerts" := AlertProcessor.VInt 0 ]} /\
  forall k : string, k <> "total_alerts" ->
    ({[ "total_alerts" := AlertProcessor.VInt 0 ]}
       : gmap string AlertProcessor.value) !! k = None.
Proof.
  split; [reflexivity|].
  intros k Hk. apply lookup_singleton_ne. congruence.
Qed.

End Errors.

(** C6, as stated, fails.  The third alert of [aware_naive_unparsable] has
    a timestamp that is not valid ISO-8601, and [get_datetime] raises
    [ValueError] on it.  Yet neither the summary nor a time-window filter
    hands that error to the caller: both raise [TypeError], from the
    comparison of the aware datetime with the naive one, before the third
    timestamp is parsed. *)
Lemma parse_error_preempted :
  Alert.mk "a3" "yesterday" "s" "c" "info" "m" 1 1 ""
    ∈ AlertProcessor.alerts aware_naive_unparsable /\
  parsedTime sample_fromisoformat
    (Alert.mk "a3" "yesterday" "s" "c" "info" "m" 1 1 "") = None /\
  Alert.get_datetime sample_fromisoformat
    (Alert.mk "a3" "yesterday" "s" "c" "info" "m" 1 1 "") = Err ValueError /\
  AlertProcessor.get_alert_summary sample_fromisoformat (fun _ => "")
    aware_naive_unparsable = Err TypeError /\
  AlertProcessor.filter_alerts ascii_lower sample_fromisoformat
    aware_naive_unparsable None None (Some 60%Z) 63839665800000000
  = Err TypeError.
Proof.
  split; [|repeat split; reflexivity].
  apply list_elem_of_In. right. right. left. reflexivity.
Qed.

(** A [Z] that is not a suffix is replaced too.  The parser rejects
    ["2024-01-01T00:00:00Z:00"], in which no [Z] suffix is to be read as
    [+00:00]; [get_datetime] hands ["2024-01-01T00:00:00+00:00:00"] to the
    parser instead, which accepts it, and returns midnight UTC. *)
Example inner_Z_is_replaced_too :
  inner_Z_free "2024-01-01T00:00:00Z:00" = false /\
  parsedTime offset_seconds_fromisoformat
    (Alert.mk "a1" "2024-01-01T00:00:00Z:00" "s" "c" "info" "m" 1 1 "") = None /\
  Alert.get_datetime offset_seconds_fromisoformat
    (Alert.mk "a1" "2024-01-01T00:00:00Z:00" "s" "c" "info" "m" 1 1 "")
  = Ok (mk_datetime 63839664000000000 (Some 0%Z)).
Proof. repeat split; reflexivity. Qed.

(** On [two_services], whose second timestamp does not parse and whose
    first is aware, the summary and the filter of the last hour raise
    [ValueError]; on the scenario, whose timestamps parse to aware
    datetimes, the summary returns and counts two alerts. *)
Lemma parse_error_propagates_witness :
  z_only_as_suffix (AlertProcessor.alerts two_services) /\
  AlertProcessor.get_alert_summary sample_fromisoformat (fun _ => "")
    two_services = Err ValueError /\
  AlertProcessor.filter_alerts ascii_lower sample_fromisoformat two_services
    None None (Some 60%Z) 63839665800000000 = Err ValueError /\
  exists m,
    AlertProcessor.get_alert_summary sample_fromisoformat (fun _ => "")
      scenario_processor = Ok m /\
    m !! "total_alerts" = Some (AlertProcessor.VInt 2).
Proof.
  assert (Hz : z_only_as_suffix (AlertProcessor.alerts two_services)).
  { intros a Ha.
    repeat (apply elem_of_cons in Ha as [->|Ha]; [reflexivity|]).
    inversion Ha. }
  assert (Haw : parsed_times_aware sample_fromisoformat
                  (AlertProcessor.alerts two_services)).
  { intros a d Ha.
    apply elem_of_cons in Ha as [->|Ha];
      [intros [= <-]; eexists; reflexivity|].
    apply elem_of_cons in Ha as [->|Ha]; [discriminate|inversion Ha]. }
  split; [exact Hz|].
  destruct (parse_error_propagates ascii_lower sample_fromisoformat
              (fun _ => "") two_services None None (Some 60%Z)
              63839665800000000 Hz) as (_ & Hbad & _).
  destruct (Hbad (Alert.mk "a2" "yesterday" "auth" "api" "info" "latency" 10 10 ""))
    as (_ & Hsum & Hfil).
  { apply list_elem_of_In. right. left. reflexivity. }
  { reflexivity. }
  split; [exact (Hsum Haw)|].
  split; [exact (proj2 (Hfil 60%Z eq_refl eq_refl) eq_refl Haw)|].
  assert (Hz' : z_only_as_suffix (AlertProcessor.alerts scenario_processor)).
  { intros a Ha.
    repeat (apply elem_of_cons in Ha as [->|Ha]; [reflexivity|]).
    inversion Ha. }
  destruct (parse_error_propagates ascii_lower sample_fromisoformat
              (fun _ => "") scenario_processor None None None 0 Hz')
    as (_ & _ & _ & _ & Hret & _).
  apply Hret. intros a Ha.
  repeat (apply elem_of_cons in Ha as [->|Ha];
          [eexists; split; [reflexivity|eexists; reflexivity]|]).
  inversion Ha.
Defined.

(** ** The scenario of the specification and other runs *)

(** The two alerts of the scenario fall into one group, payment-processor/db,
    with two alerts, one critical and one info. *)
Example scenario_groups :
  map (fun g => (AlertGroup.service g, AlertGroup.component g,
                 AlertGroup.total_alerts g,
                 AlertGroup.severity_counts g !! "critical",
                 AlertGroup.severity_counts g !! "info"))
    (AlertProcessor.group_alerts
       (AlertProcessor.mk "sample_alerts.json" scenario_alerts) None)
  = [("payment-processor", "db", 2, Some 1, Some 1)].
Proof. vm_compute. reflexivity. Qed.

(** Their score is 0.5*11 + 0.3*45 + 0.2*1, the float nearest to 19.2. *)
Example scenario_score :
  AlertProcessor.calculate_incident_priority scenario_alerts = Ok 19.2%float.
Proof. vm_compute. reflexivity. Qed.

(** A severity in another letter case weighs nothing in the score. *)
Example uppercase_severity_weighs_nothing :
  AlertProcessor.find_level "CRITICAL" = None /\
  AlertProcessor.find_level "critical" = Some SeverityLevel.CRITICAL.
Proof. split; reflexivity. Qed.

(** The time window on [two_services] without a severity: the second
    alert's timestamp is parsed, and the call raises. *)
Example window_reaches_bad_timestamp :
  AlertProcessor.filter_alerts ascii_lower sample_fromisoformat two_services
    None None (Some 60%Z) 63839665800000000 = Err ValueError.
Proof. reflexivity. Qed.

(** A window of two billion minutes reaches back before year 1: the cutoff
    cannot be computed, whatever the alerts. *)
Example window_before_year_one :
  AlertProcessor.filter_alerts ascii_lower sample_fromisoformat one_critical
    None None (Some 2000000000%Z) 63839665800000000 = Err OverflowError.
Proof. reflexivity. Qed.

(** * Further properties of the program *)

(** ** The severity catalog *)

(** X1. The lookup of a level by its label inverts [label]: a string finds the
    level whose label it is, and no other string finds any level.  The
    labels are therefore pairwise distinct. *)
Theorem find_level_label (s : string) (level : SeverityLevel.t) :
  AlertProcessor.find_level s = Some level <-> s = SeverityLevel.label level.
Proof.
  unfold AlertProcessor.find_level, SeverityLevel.members.
  cbn [find SeverityLevel.label].
  destruct (String.eqb "critical" s) eqn:H1;
    [apply String.eqb_eq in H1; subst s; destruct level; cbn; split;
       (reflexivity || discriminate)|].
  destruct (String.eqb "warning" s) eqn:H2;
    [apply String.eqb_eq in H2; subst s; destruct level; cbn; split;
       (reflexivity || discriminate)|].
  destruct (String.eqb "info" s) eqn:H3;
    [apply String.eqb_eq in H3; subst s; destruct level; cbn; split;
       (reflexivity || discriminate)|].
  apply String.eqb_neq in H1, H2, H3.
  split; [discriminate|]. intros ->. destruct level; cbn in *; congruence.
Qed.

(** ** More on grouping *)

Section GroupingMore.

Import AlertProcessor.

Lemma first_appearance_length {A : Type} `{EqDecision A} (l : list A) :
  length (first_appearance l) = length (remove_dups l).
Proof.
  apply Permutation_length, NoDup_Permutation.
  - apply first_appearance_NoDup.
  - apply NoDup_remove_dups.
  - intros x. rewrite first_appearance_elem_of, elem_of_remove_dups.
    reflexivity.
Qed.

Lemma first_appearance_length_le {A : Type} `{EqDecision A} (l : list A) :
  length (first_appearance l) <= length l.
Proof.
  induction l as [|x l IH]; cbn; [lia|].
  pose proof (filter_length_le
    (fun y => negb (bool_decide (y = x))) (first_appearance l)). lia.
Qed.

(** X2. The number of affected components of a list of alerts is the number of
    groups that grouping the list returns. *)
Theorem affected_components_count_groups
  (self : AlertProcessor.t) (l : list Alert.t) :
  get_affected_components_count l = length (group_alerts self (Some l)).
Proof.
  rewrite affected_components_distinct, group_alerts_closed_form.
  unfold groups_of, affectedComponents.
  rewrite !length_map. symmetry. apply first_appearance_length.
Qed.

Lemma members_nonempty l k : k ∈ map Alert.key l -> members l k <> [].
Proof.
  intros Hk Hnil. apply list_elem_of_In, in_map_iff in Hk as (a & <- & Ha).
  apply list_elem_of_In in Ha.
  assert (Hm : a ∈ members l (Alert.key a)).
  { apply filter_elem_of. split; [exact Ha|].
    apply bool_decide_eq_true_2. reflexivity. }
  rewrite Hnil in Hm. inversion Hm.
Qed.

(** X3. Every group of a grouping pass holds exactly the alerts of the input
    that carry its (service, component), in input order; no group is empty;
    there are at most as many groups as alerts, and none only for the empty
    input. *)
Theorem group_alerts_members (self : AlertProcessor.t) (l : list Alert.t) :
  Forall
    (fun g =>
       AlertGroup.alerts g =
         List.filter
           (fun a => bool_decide
              (Alert.key a = (AlertGroup.service g, AlertGroup.component g)))
           l /\
       AlertGroup.alerts g <> [] /\
       1 <= AlertGroup.total_alerts g)
    (group_alerts self (Some l)) /\
  length (group_alerts self (Some l)) <= length l /\
  (group_alerts self (Some l) = [] <-> l = []).
Proof.
  assert (Hlen : length (group_alerts self (Some l)) <= length l).
  { rewrite group_alerts_closed_form. unfold groups_of. rewrite !length_map.
    rewrite <- (length_map Alert.key l). apply first_appearance_length_le. }
  split; [|split; [exact Hlen|]]; cycle 1.
  - split; [|intros ->; reflexivity].
    rewrite group_alerts_closed_form. unfold groups_of.
    destruct l as [|a l]; [reflexivity|discriminate].
  - apply Forall_forall. intros g Hg.
    apply elem_of_group_alerts in Hg as (k & Hk & ->).
    destruct k as [s c]. cbn. fold (members l (s, c)).
    pose proof (members_nonempty l (s, c) Hk) as Hne.
    repeat split; [exact Hne|].
    destruct (members l (s, c)); [congruence|cbn; lia].
Qed.

Lemma concat_insert_one {A : Type} (ks : list (string * string))
  (x : string * string) (a : A) (f : string * string -> list A) :
  NoDup ks -> x ∈ ks ->
  concat (map (fun k => if bool_decide (x = k) then a :: f k else f k) ks)
  ≡ₚ a :: concat (map f ks).
Proof.
  induction 1 as [|k ks Hk Hks IH]; cbn.
  - intros Hx. inversion Hx.
  - rewrite elem_of_cons. intros [->|Hin].
    + rewrite bool_decide_eq_true_2 by reflexivity. cbn.
      apply Permutation_cons; [reflexivity|]. apply Permutation_app_head.
      assert (Heq : map (fun k0 => if bool_decide (k = k0) then a :: f k0 else f k0) ks
                    = map f ks).
      { apply map_ext_in. intros k' Hk'. apply list_elem_of_In in Hk'.
        rewrite bool_decide_eq_false_2; [reflexivity|].
        intros ->. exact (Hk Hk'). }
      rewrite Heq. reflexivity.
    + rewrite bool_decide_eq_false_2 by (intros ->; exact (Hk Hin)).
      rewrite (IH Hin). symmetry. apply Permutation_middle.
Qed.

Lemma concat_members (ks : list (string * string)) (l : list Alert.t) :
  NoDup ks -> (forall a, a ∈ l -> Alert.key a ∈ ks) ->
  concat (map (members l) ks) ≡ₚ l.
Proof.
  intros Hnd. induction l as [|a l IH]; intros Hks.
  - cbn. clear. induction ks; cbn; [reflexivity|assumption].
  - assert (Hstep : map (members (a :: l)) ks =
                    map (fun k => if bool_decide (Alert.key a = k)
                                  then a :: members l k else members l k) ks).
    { apply map_ext. intros k. unfold members. cbn.
      destruct (bool_decide _); reflexivity. }
    rewrite Hstep, concat_insert_one; [|exact Hnd|apply Hks; left].
    apply Permutation_cons; [reflexivity|].
    apply IH. intros a' Ha'. apply Hks. right. exact Ha'.
Qed.

(** X4. Grouping neither loses nor duplicates an alert: the alert lists of the
    groups, one after the other, are a permutation of the input. *)
Theorem group_alerts_permutation (self : AlertProcessor.t) (l : list Alert.t) :
  concat (map AlertGroup.alerts (group_alerts self (Some l))) ≡ₚ l.
Proof.
  rewrite group_alerts_closed_form. unfold groups_of. rewrite !map_map. cbn.
  apply concat_members; [apply first_appearance_NoDup|].
  intros a Ha. apply first_appearance_elem_of.
  apply list_elem_of_In, in_map, list_elem_of_In, Ha.
Qed.

Lemma first_appearance_prefix {A : Type} `{EqDecision A} (l l' : list A) :
  first_appearance l `prefix_of` first_appearance (l ++ l').
Proof.
  induction l' as [|x l' IH] using rev_ind.
  - rewrite app_nil_r. reflexivity.
  - rewrite app_assoc, first_appearance_snoc. apply prefix_app_r, IH.
Qed.

(** X5. Alerts that arrive later never reorder or remove the groups formed so
    far: the keys of the groups of [l] are a prefix of the keys of the
    groups of [l ++ l'], and the alerts of each group of [l] are a prefix of
    the alerts of the group of [l ++ l'] with the same key. *)
Theorem group_alerts_extension (self : AlertProcessor.t) (l l' : list Alert.t) :
  map (fun g => (AlertGroup.service g, AlertGroup.component g))
    (group_alerts self (Some l))
  `prefix_of`
  map (fun g => (AlertGroup.service g, AlertGroup.component g))
    (group_alerts self (Some (l ++ l'))) /\
  Forall
    (fun g =>
       exists g', g' ∈ group_alerts self (Some (l ++ l')) /\
         AlertGroup.service g' = AlertGroup.service g /\
         AlertGroup.component g' = AlertGroup.component g /\
         AlertGroup.alerts g `prefix_of` AlertGroup.alerts g')
    (group_alerts self (Some l)).
Proof.
  split.
  - rewrite !group_alerts_closed_form. unfold groups_of. rewrite !map_map.
    cbn. 
    assert (Hid : forall ks : list (string * string),
              map (fun x => (x.1, x.2)) ks = ks).
    { induction ks as [|[s c] ks IH]; cbn; [|rewrite IH]; reflexivity. }
    rewrite !Hid, map_app. apply first_appearance_prefix.
  - apply Forall_forall. intros g Hg.
    apply elem_of_group_alerts in Hg as (k & Hk & ->).
    exists (group_of (l ++ l') k). split; [|split; [reflexivity|split; [reflexivity|]]].
    + apply elem_of_group_alerts. exists k. split; [|reflexivity].
      rewrite map_app. apply elem_of_app. left. exact Hk.
    + cbn. unfold members. rewrite List.filter_app. apply prefix_app_r.
      reflexivity.
Qed.

End GroupingMore.

(** ** More on filtering *)

Lemma filterM_ok_inv {A : Type} (c : A -> result bool) (l r : list A) :
  filterM c l = Ok r ->
  r = List.filter (fun x => match c x with Ok b => b | Err _ => false end) l /\
  forall x, x ∈ l -> is_ok (c x) = true.
Proof.
  revert r. induction l as [|x l IH]; cbn; intros r.
  - intros [= <-]. split; [reflexivity|]. intros x Hx. inversion Hx.
  - destruct (c x) as [b|e] eqn:Hc; cbn; [|discriminate].
    destruct (filterM c l) as [r'|e]; cbn; [|discriminate].
    intros [= <-]. destruct (IH r' eq_refl) as [-> Hok].
    split; [destruct b; reflexivity|].
    intros y Hy. apply elem_of_cons in Hy as [->|Hy];
      [rewrite Hc; reflexivity|apply Hok, Hy].
Qed.

Lemma sublist_filter_bool {A : Type} (p : A -> bool) (l : list A) :
  List.filter p l `sublist_of` l.
Proof.
  induction l as [|x l IH]; cbn; [constructor|].
  destruct (p x); [apply sublist_skip|apply sublist_cons]; exact IH.
Qed.

Lemma sublist_filter_impl {A : Type} (p q : A -> bool) (l : list A) :
  (forall x, x ∈ l -> p x = true -> q x = true) ->
  List.filter p l `sublist_of` List.filter q l.
Proof.
  induction l as [|x l IH]; cbn; intros Himp; [constructor|].
  assert (IH' : List.filter p l `sublist_of` List.filter q l).
  { apply IH. intros y Hy. apply Himp. right. exact Hy. }
  destruct (p x) eqn:Hp.
  - rewrite (Himp x ltac:(left) Hp). apply sublist_skip, IH'.
  - destruct (q x); [apply sublist_cons|]; exact IH'.
Qed.

Lemma filter_idem {A : Type} (p : A -> bool) (l : list A) :
  List.filter p (List.filter p l) = List.filter p l.
Proof.
  induction l as [|x l IH]; cbn; [reflexivity|].
  destruct (p x) eqn:Hp; cbn; [rewrite Hp, IH|rewrite IH]; reflexivity.
Qed.

Section FilteringMore.

Variable lower : string -> string.
Variable fromisoformat : string -> option datetime.

Local Abbreviation filter_alerts := (AlertProcessor.filter_alerts lower fromisoformat).
Local Abbreviation get_datetime := (Alert.get_datetime fromisoformat).
Local Abbreviation recent := (AlertProcessor.recent fromisoformat).
Local Abbreviation matches_ci := (matches_ci lower).
Local Abbreviation satisfies_labels := (satisfies_labels lower).
Local Abbreviation satisfies := (satisfies lower fromisoformat).
Local Abbreviation pass_condition := (pass_condition lower fromisoformat).
Local Abbreviation parses_aware := (parses_aware fromisoformat).
Local Abbreviation filter_returns := (filter_returns lower fromisoformat).

Lemma recent_ok_aware (c : datetime) (a : Alert.t) :
  is_Some (utcoffset c) -> is_ok (recent c a) = true -> parses_aware a.
Proof.
  intros [oc Hc]. unfold AlertProcessor.recent, dt_ge, dt_cmp.
  destruct (get_datetime a) as [d|e] eqn:Hd; cbn; [|discriminate].
  rewrite Hc. destruct (utcoffset d) as [od|] eqn:Hod; [|discriminate].
  intros _. exists d. split; [exact Hd|]. rewrite Hod. eexists. reflexivity.
Qed.

Lemma filter_alerts_result self severity service window clock :
  filter_returns self severity service window clock ->
  filter_alerts self severity service window clock =
    Ok (List.filter
          (satisfies (effective_label severity) (effective_label service)
             (effective_window window) clock)
          (AlertProcessor.alerts self)).
Proof.
  intros Hwin. rewrite filter_alerts_one_pass.
  destruct (effective_window window) as [m|] eqn:Hw.
  - destruct (Hwin m Hw) as [Hcut Hparse].
    destruct (cutoff clock m) as [c|e] eqn:Hc; [|discriminate Hcut].
    cbn [bind]. rewrite filterM_ok.
    + f_equal. apply filter_ext. intros a. unfold satisfies, pass_condition.
      cbn [criterion]. rewrite Hc.
      destruct (satisfies_labels _ _ a); reflexivity.
    + intros a Ha. unfold pass_condition.
      destruct (satisfies_labels _ _ a) eqn:Hlab; [|reflexivity].
      apply recent_parses_aware; [exact (cutoff_aware _ _ _ Hc)|].
      exact (Hparse a Ha Hlab).
  - f_equal. apply filter_ext. intros a. unfold satisfies. cbn [criterion].
    rewrite andb_true_r. reflexivity.
Qed.

Lemma filter_alerts_ok_returns self severity service window clock r :
  filter_alerts self severity service window clock = Ok r ->
  filter_returns self severity service window clock.
Proof.
  rewrite filter_alerts_one_pass. intros Hr m Hm. rewrite Hm in Hr.
  destruct (cutoff clock m) as [c|e] eqn:Hc; cbn [bind] in Hr; [|discriminate].
  split; [reflexivity|]. intros a Ha Hlab.
  apply filterM_ok_inv in Hr as [_ Hok]. specialize (Hok a Ha).
  unfold pass_condition in Hok. rewrite Hlab in Hok.
  exact (recent_ok_aware c a (cutoff_aware _ _ _ Hc) Hok).
Qed.

(** X6. A filter returns exactly when, for a window that takes effect, the
    cutoff is representable and every alert that passes the severity and
    service criteria has a timestamp that parses to an aware datetime; and
    what it returns is a subsequence of the processor's alerts. *)
Theorem filter_alerts_returns_iff self severity service window clock :
  (is_ok (filter_alerts self severity service window clock) = true <->
   filter_returns self severity service window clock) /\
  forall r, filter_alerts self severity service window clock = Ok r ->
    r `sublist_of` AlertProcessor.alerts self /\
    length r <= length (AlertProcessor.alerts self).
Proof.
  split; [split|].
  - destruct (filter_alerts self severity service window clock) as [r|e] eqn:Hr;
      [|discriminate].
    intros _. exact (filter_alerts_ok_returns _ _ _ _ _ _ Hr).
  - intros H. rewrite (filter_alerts_result _ _ _ _ _ H). reflexivity.
  - intros r Hr.
    pose proof (filter_alerts_ok_returns _ _ _ _ _ _ Hr) as H.
    rewrite (filter_alerts_result _ _ _ _ _ H) in Hr. injection Hr as <-.
    split; [apply sublist_filter_bool|apply filter_length_le].
Qed.

(** X7. Filtering is idempotent: the alerts that a filter returns all pass the
    same filter again, at the same clock reading. *)
Theorem filter_alerts_idempotent self severity service window clock r :
  filter_alerts self severity service window clock = Ok r ->
  filter_alerts (AlertProcessor.mk (AlertProcessor.file_path self) r)
    severity service window clock = Ok r.
Proof.
  intros Hr.
  pose proof (filter_alerts_ok_returns _ _ _ _ _ _ Hr) as H.
  rewrite (filter_alerts_result _ _ _ _ _ H) in Hr. injection Hr as <-.
  rewrite filter_alerts_result.
  - cbn. rewrite filter_idem. reflexivity.
  - intros m Hm. destruct (H m Hm) as [Hc Hp]. split; [exact Hc|].
    cbn. intros a Ha. apply filter_elem_of in Ha as [Ha _]. apply Hp, Ha.
Qed.


(** X8. The criteria can be applied one call at a time, in either order of
    severity and service: filtering by severity and then filtering the
    result by service, or the other way round, returns what one call with
    both criteria returns; the window can be applied last, on its own. *)
Theorem filter_alerts_composes self severity service window clock :
  let fp := AlertProcessor.file_path self in
  (r <- filter_alerts self severity None None clock ;;
   filter_alerts (AlertProcessor.mk fp r) None service None clock)
  = filter_alerts self severity service None clock /\
  (r <- filter_alerts self None service None clock ;;
   filter_alerts (AlertProcessor.mk fp r) severity None None clock)
  = filter_alerts self severity service None clock /\
  (r <- filter_alerts self severity service None clock ;;
   filter_alerts (AlertProcessor.mk fp r) None None window clock)
  = filter_alerts self severity service window clock.
Proof.
  intros fp. split; [|split].
  - reflexivity.
  - unfold AlertProcessor.filter_alerts. cbn [bind AlertProcessor.alerts].
    rewrite !(label_stage lower severity Alert.severity).
    rewrite !(label_stage lower service Alert.service).
    rewrite !filter_filter_bool. f_equal. apply filter_ext. intros a.
    apply andb_comm.
  - reflexivity.
Qed.

(** X9. Two spellings of a criterion that [lower] maps to the same string
    select alike. *)
Theorem filter_alerts_case_insensitive self s s' service window clock :
  lower s = lower s' -> s <> "" -> s' <> "" ->
  filter_alerts self (Some s) service window clock =
  filter_alerts self (Some s') service window clock /\
  filter_alerts self service (Some s) window clock =
  filter_alerts self service (Some s') window clock.
Proof.
  intros Hl Hs Hs'. unfold AlertProcessor.filter_alerts.
  assert (Ht : str_truthy s = true) by (destruct s; [congruence|reflexivity]).
  assert (Ht' : str_truthy s' = true) by (destruct s'; [congruence|reflexivity]).
  rewrite Ht, Ht', Hl. split; reflexivity.
Qed.

Lemma cutoff_ok_inv clock m c :
  cutoff clock m = Ok c ->
  c = mk_datetime (clock - m * 60000000)%Z (Some 0%Z).
Proof.
  unfold cutoff, timedelta_minutes, datetime_sub.
  destruct (_ && _); cbn; [|discriminate].
  destruct (_ && _); [|discriminate].
  intros [= <-]. reflexivity.
Qed.

(** X10. A wider window never loses an alert: of two windows that take effect,
    the alerts returned for the shorter one form a subsequence of the alerts
    returned for the longer one, at the same clock reading. *)
Theorem filter_alerts_window_monotone self severity service m1 m2 clock r1 r2 :
  (m1 <= m2)%Z -> m1 <> 0%Z -> m2 <> 0%Z ->
  filter_alerts self severity service (Some m1) clock = Ok r1 ->
  filter_alerts self severity service (Some m2) clock = Ok r2 ->
  r1 `sublist_of` r2.
Proof.
  intros Hle Hm1 Hm2 H1 H2.
  pose proof (filter_alerts_ok_returns _ _ _ _ _ _ H1) as Hr1.
  pose proof (filter_alerts_ok_returns _ _ _ _ _ _ H2) as Hr2.
  rewrite (filter_alerts_result _ _ _ _ _ Hr1) in H1. injection H1 as <-.
  rewrite (filter_alerts_result _ _ _ _ _ Hr2) in H2. injection H2 as <-.
  pose proof (proj2 (Z.eqb_neq m1 0) Hm1) as E1.
  pose proof (proj2 (Z.eqb_neq m2 0) Hm2) as E2.
  assert (He1 : effective_window (Some m1) = Some m1)
    by (cbn; rewrite E1; reflexivity).
  assert (He2 : effective_window (Some m2) = Some m2)
    by (cbn; rewrite E2; reflexivity).
  destruct (Hr1 m1 He1) as [Hc1 _]. destruct (Hr2 m2 He2) as [Hc2 _].
  cbn [effective_window]. rewrite E1, E2.
  apply sublist_filter_impl. intros a _.
  unfold satisfies. cbn [criterion].
  destruct (cutoff clock m1) as [c1|] eqn:Hk1; [|discriminate Hc1].
  destruct (cutoff clock m2) as [c2|] eqn:Hk2; [|discriminate Hc2].
  apply cutoff_ok_inv in Hk1, Hk2. subst c1 c2.
  destruct (satisfies_labels _ _ a); [|discriminate]. cbn [andb].
  unfold on_or_after, AlertProcessor.recent, dt_ge, dt_cmp.
  destruct (get_datetime a) as [d|e]; cbn; [|discriminate].
  destruct (utcoffset d) as [od|]; [|discriminate]. cbn.
  intros H. apply Z.geb_le in H. apply Z.geb_le. lia.
Qed.

(** X11. A timestamp without a UTC offset cannot be compared with the cutoff:
    when a window takes effect, the cutoff is representable, the alerts
    that pass the severity and service criteria all parse, and one of them
    parses to a naive datetime, the filter raises [TypeError]. *)
Theorem filter_alerts_naive_timestamp self severity service window clock m a d :
  effective_window window = Some m ->
  is_ok (cutoff clock m) = true ->
  (forall x, x ∈ AlertProcessor.alerts self ->
     satisfies_labels (effective_label severity) (effective_label service) x
       = true ->
     is_ok (get_datetime x) = true) ->
  a ∈ AlertProcessor.alerts self ->
  satisfies_labels (effective_label severity) (effective_label service) a = true ->
  get_datetime a = Ok d -> utcoffset d = None ->
  filter_alerts self severity service window clock = Err TypeError.
Proof.
  intros Hm Hcut Hparse Ha Hlab Hd Hnaive.
  rewrite filter_alerts_one_pass, Hm.
  destruct (cutoff clock m) as [c|] eqn:Hc; [|discriminate Hcut]. cbn [bind].
  destruct (cutoff_aware _ _ _ Hc) as [oc Hoc].
  assert (Hcond : pass_condition severity service c a = Err TypeError).
  { unfold pass_condition, AlertProcessor.recent, dt_ge, dt_cmp.
    rewrite Hlab, Hd. cbn. rewrite Hnaive, Hoc. reflexivity. }
  destruct (filterM_raises _ _ a _ Ha Hcond) as [e He]. rewrite He. f_equal.
  apply filterM_err_inv in He as (x & Hx & Hcx).
  unfold pass_condition, AlertProcessor.recent, dt_ge in Hcx.
  destruct (satisfies_labels _ _ x) eqn:Hlx; [|discriminate].
  specialize (Hparse x Hx Hlx).
  destruct (get_datetime x) as [dx|]; [|discriminate Hparse].
  cbn in Hcx. exact (dt_cmp_err _ _ _ _ Hcx).
Qed.

(** X12. A window that takes the cutoff outside the years 1 to 9999 makes the
    filter raise [OverflowError], before any alert is looked at. *)
Theorem filter_alerts_cutoff_out_of_range self severity service m clock :
  m <> 0%Z ->
  (clock - m * 60000000 < 0 \/ datetime_span <= clock - m * 60000000)%Z ->
  filter_alerts self severity service (Some m) clock = Err OverflowError.
Proof.
  intros Hm Hrange. rewrite filter_alerts_one_pass. cbn.
  apply Z.eqb_neq in Hm. rewrite Hm.
  assert (Hc : cutoff clock m = Err OverflowError).
  { unfold cutoff, timedelta_minutes, datetime_sub.
    destruct (_ && _); cbn; [|reflexivity].
    destruct ((0 <=? clock - m * 60000000)%Z
              && (clock - m * 60000000 <? datetime_span)%Z) eqn:Hin;
      [|reflexivity].
    apply andb_true_iff in Hin as [H1 H2].
    apply Z.leb_le in H1. apply Z.ltb_lt in H2. lia. }
  rewrite Hc. reflexivity.
Qed.


(** X13. No match is no error: when no alert passes the severity and service
    criteria, the filter returns the empty list without reading a
    timestamp, provided the cutoff of a window that takes effect is
    representable.  In particular this is what an empty collection gives. *)
Theorem filter_alerts_no_match self severity service window clock :
  (forall m, effective_window window = Some m -> is_ok (cutoff clock m) = true) ->
  (forall a, a ∈ AlertProcessor.alerts self ->
     satisfies_labels (effective_label severity) (effective_label service) a
       = false) ->
  filter_alerts self severity service window clock = Ok [].
Proof.
  intros Hcut Hnone. rewrite filter_alerts_result.
  - f_equal. induction (AlertProcessor.alerts self) as [|a l IH]; [reflexivity|].
    cbn [List.filter]. unfold satisfies at 1.
    rewrite (Hnone a ltac:(left)). cbn [andb].
    apply IH. intros x Hx. apply Hnone. right. exact Hx.
  - intros m Hm. split; [exact (Hcut m Hm)|].
    intros a Ha Hlab. rewrite (Hnone a Ha) in Hlab. discriminate Hlab.
Qed.

End FilteringMore.

(** ** More on timestamps and the summary *)

Lemma string_app_cons (x : ascii) (s1 s2 : string) :
  String.append (String x s1) s2 = String x (String.append s1 s2).
Proof. reflexivity. Qed.

Lemma string_app_assoc (s1 s2 s3 : string) :
  String.append s1 (String.append s2 s3) =
  String.append (String.append s1 s2) s3.
Proof.
  induction s1 as [|x s1 IH]; [reflexivity|].
  rewrite !string_app_cons, IH. reflexivity.
Qed.

Lemma replace_char_app (c : ascii) (by_ s1 s2 : string) :
  replace_char c by_ (String.append s1 s2) =
  String.append (replace_char c by_ s1) (replace_char c by_ s2).
Proof.
  induction s1 as [|x s1 IH]; [reflexivity|].
  rewrite string_app_cons. cbn [replace_char]. rewrite IH.
  destruct (Ascii.eqb x c); [apply string_app_assoc|reflexivity].
Qed.

Section SummaryMore.

Variable fromisoformat : string -> option datetime.
Variable isoformat : datetime -> string.

Local Abbreviation get_datetime := (Alert.get_datetime fromisoformat).
Local Abbreviation extreme := (AlertProcessor.extreme fromisoformat).
Local Abbreviation extreme_loop := (AlertProcessor.extreme_loop fromisoformat).
Local Abbreviation get_alert_summary :=
  (AlertProcessor.get_alert_summary fromisoformat isoformat).
Local Abbreviation parses_aware := (parses_aware fromisoformat).

(** X14. A [Z] anywhere in the timestamp is read as [+00:00]: two alerts whose
    timestamps differ only in that spelling parse alike.  With nothing
    after the [Z], this is the UTC suffix. *)
Theorem get_datetime_Z_is_utc (a b : Alert.t) (s1 s2 : string) :
  Alert.timestamp a = String.append s1 (String.append "Z" s2) ->
  Alert.timestamp b = String.append s1 (String.append "+00:00" s2) ->
  get_datetime a = get_datetime b.
Proof.
  intros Ha Hb. unfold Alert.get_datetime. rewrite Ha, Hb.
  rewrite !replace_char_app. reflexivity.
Qed.

(** *** The passes of [min] and [max] on aware timestamps *)

Lemma dt_cmp_instants op x y :
  is_Some (utcoffset x) -> is_Some (utcoffset y) ->
  dt_cmp op x y = Ok (op (instant x) (instant y)).
Proof.
  intros [ox Hx] [oy Hy]. unfold dt_cmp, instant. rewrite Hx, Hy. reflexivity.
Qed.

Section Extreme.

Variable op : Z -> Z -> bool.
Variable R : Z -> Z -> Prop.
Hypothesis R_trans : forall x y z, R x y -> R y z -> R x z.
Hypothesis R_refl : forall x, R x x.
Hypothesis op_true : forall x y, op x y = true -> R x y.
Hypothesis op_false : forall x y, op x y = false -> R y x.

Lemma extreme_loop_best best l :
  is_Some (utcoffset best) ->
  (forall a, a ∈ l -> parses_aware a) ->
  exists d, extreme_loop (dt_cmp op) best l = Ok d /\
    (d = best \/ exists a, a ∈ l /\ get_datetime a = Ok d) /\
    R (instant d) (instant best) /\
    forall a d', a ∈ l -> get_datetime a = Ok d' -> R (instant d) (instant d').
Proof using R_trans R_refl op_true op_false.
  revert best. induction l as [|a l IH]; intros best Hbest Hall.
  - exists best. split; [reflexivity|]. split; [left; reflexivity|].
    split; [apply R_refl|]. intros a d' Ha. inversion Ha.
  - destruct (Hall a ltac:(left)) as (da & Hda & Haw).
    cbn. rewrite Hda. cbn. rewrite (dt_cmp_instants op da best Haw Hbest). cbn.
    destruct (IH (if op (instant da) (instant best) then da else best))
      as (d & Hd & Hfrom & Hbest' & Hmin).
    { destruct (op _ _); assumption. }
    { intros x Hx. apply Hall. right. exact Hx. }
    exists d. split; [exact Hd|].
    assert (Hboth : R (instant d) (instant da) /\ R (instant d) (instant best)).
    { destruct (op (instant da) (instant best)) eqn:Hop.
      - split; [exact Hbest'|]. eapply R_trans; [exact Hbest'|].
        apply op_true, Hop.
      - split; [|exact Hbest']. eapply R_trans; [exact Hbest'|].
        apply op_false, Hop. }
    destruct Hboth as [Hda' Hb']. split; [|split; [exact Hb'|]].
    + destruct Hfrom as [->|(x & Hx & Hxd)].
      * destruct (op _ _); [right; exists a; split; [left|exact Hda]|left; reflexivity].
      * right. exists x. split; [right; exact Hx|exact Hxd].
    + intros x d' Hx Hxd. apply elem_of_cons in Hx as [->|Hx].
      * rewrite Hda in Hxd. injection Hxd as <-. exact Hda'.
      * exact (Hmin x d' Hx Hxd).
Qed.

Lemma extreme_best l :
  l <> [] ->
  (forall a, a ∈ l -> parses_aware a) ->
  exists a d, a ∈ l /\ get_datetime a = Ok d /\
    extreme (dt_cmp op) l = Ok d /\
    forall a' d', a' ∈ l -> get_datetime a' = Ok d' ->
                  R (instant d) (instant d').
Proof using R_trans R_refl op_true op_false.
  destruct l as [|y l]; [congruence|]. intros _ Hall.
  destruct (Hall y ltac:(left)) as (dy & Hdy & Haw).
  destruct (extreme_loop_best dy l Haw) as (d & Hd & Hfrom & Hbest & Hmin).
  { intros x Hx. apply Hall. right. exact Hx. }
  assert (Hex : exists a, a ∈ y :: l /\ get_datetime a = Ok d).
  { destruct Hfrom as [->|(x & Hx & Hxd)].
    - exists y. split; [left|exact Hdy].
    - exists x. split; [right; exact Hx|exact Hxd]. }
  destruct Hex as (a & Ha & Had). exists a, d.
  split; [exact Ha|]. split; [exact Had|]. split.
  - cbn. rewrite Hdy. exact Hd.
  - intros x d' Hx Hxd. apply elem_of_cons in Hx as [->|Hx].
    + rewrite Hdy in Hxd. injection Hxd as <-. exact Hbest.
    + exact (Hmin x d' Hx Hxd).
Qed.

End Extreme.

Lemma earliest_of l :
  l <> [] -> (forall a, a ∈ l -> parses_aware a) ->
  exists a d, a ∈ l /\ get_datetime a = Ok d /\ extreme dt_lt l = Ok d /\
    forall a' d', a' ∈ l -> get_datetime a' = Ok d' ->
                  (instant d <= instant d')%Z.
Proof.
  apply (extreme_best Z.ltb Z.le).
  - intros x y z. apply Z.le_trans.
  - apply Z.le_refl.
  - intros x y H. apply Z.ltb_lt in H. lia.
  - intros x y H. apply Z.ltb_ge in H. exact H.
Qed.

Lemma latest_of l :
  l <> [] -> (forall a, a ∈ l -> parses_aware a) ->
  exists a d, a ∈ l /\ get_datetime a = Ok d /\ extreme dt_gt l = Ok d /\
    forall a' d', a' ∈ l -> get_datetime a' = Ok d' ->
                  (instant d' <= instant d)%Z.
Proof.
  apply (extreme_best Z.gtb (fun x y => (y <= x)%Z)).
  - intros x y z H1 H2. lia.
  - intros x. lia.
  - intros x y H. rewrite Z.gtb_ltb in H. apply Z.ltb_lt in H. lia.
  - intros x y H. rewrite Z.gtb_ltb in H. apply Z.ltb_ge in H. exact H.
Qed.


Lemma distribution_of_tally field l :
  distribution_of field l (AlertProcessor.tally field l).
Proof.
  split; [apply dict_sum_tally|].
  intros s. rewrite tally_lookup. cbn zeta. destruct (length _); reflexivity.
Qed.

Lemma get_alert_summary_ok self :
  AlertProcessor.alerts self <> [] ->
  (forall a, a ∈ AlertProcessor.alerts self -> parses_aware a) ->
  exists a_min d_min a_max d_max,
    a_min ∈ AlertProcessor.alerts self /\ get_datetime a_min = Ok d_min /\
    a_max ∈ AlertProcessor.alerts self /\ get_datetime a_max = Ok d_max /\
    (forall a d, a ∈ AlertProcessor.alerts self -> get_datetime a = Ok d ->
       (instant d_min <= instant d <= instant d_max)%Z) /\
    get_alert_summary self =
      Ok (<["total_alerts" :=
              AlertProcessor.VInt (length (AlertProcessor.alerts self))]>
          (<["severity_distribution" :=
               AlertProcessor.VCounts
                 (AlertProcessor.tally Alert.severity (AlertProcessor.alerts self))]>
          (<["service_distribution" :=
               AlertProcessor.VCounts
                 (AlertProcessor.tally Alert.service (AlertProcessor.alerts self))]>
          (<["component_distribution" :=
               AlertProcessor.VCounts
                 (AlertProcessor.tally Alert.component (AlertProcessor.alerts self))]>
          (<["time_range" :=
               AlertProcessor.VRange (isoformat d_min) (isoformat d_max)]>
           ∅))))).
Proof.
  intros Hne Hall.
  destruct (earliest_of _ Hne Hall) as (a1 & d1 & Ha1 & Hd1 & He1 & Hmin).
  destruct (latest_of _ Hne Hall) as (a2 & d2 & Ha2 & Hd2 & He2 & Hmax).
  exists a1, d1, a2, d2. repeat (split; [assumption|]). split.
  - intros a d Ha Hd. split; [exact (Hmin a d Ha Hd)|exact (Hmax a d Ha Hd)].
  - unfold AlertProcessor.get_alert_summary.
    destruct (AlertProcessor.alerts self) as [|y l] eqn:Hl; [congruence|].
    rewrite He1, He2. reflexivity.
Qed.

(** X15. The summary of a non-empty collection whose timestamps all parse to
    aware datetimes is returned, with five keys: the number of alerts, and
    for severity, service and component a distribution whose count under a
    string is the number of alerts with literally that value and whose
    counts add up to the number of alerts. *)
Theorem get_alert_summary_distributions self :
  AlertProcessor.alerts self <> [] ->
  (forall a, a ∈ AlertProcessor.alerts self -> parses_aware a) ->
  exists severity_counts service_counts component_counts time_range,
    get_alert_summary self =
      Ok (<["total_alerts" :=
              AlertProcessor.VInt (length (AlertProcessor.alerts self))]>
          (<["severity_distribution" := AlertProcessor.VCounts severity_counts]>
          (<["service_distribution" := AlertProcessor.VCounts service_counts]>
          (<["component_distribution" := AlertProcessor.VCounts component_counts]>
          (<["time_range" := time_range]> ∅))))) /\
    distribution_of Alert.severity (AlertProcessor.alerts self) severity_counts /\
    distribution_of Alert.service (AlertProcessor.alerts self) service_counts /\
    distribution_of Alert.component (AlertProcessor.alerts self) component_counts.
Proof.
  intros Hne Hall.
  destruct (get_alert_summary_ok self Hne Hall)
    as (a1 & d1 & a2 & d2 & _ & _ & _ & _ & _ & Hsum).
  eexists _, _, _, _. split; [exact Hsum|].
  repeat split; apply distribution_of_tally.
Qed.

(** X16. In that summary the time range runs from the timestamp of an alert
    whose UTC instant no other alert precedes to the timestamp of an alert
    whose UTC instant no other alert follows. *)
Theorem get_alert_summary_time_range self :
  AlertProcessor.alerts self <> [] ->
  (forall a, a ∈ AlertProcessor.alerts self -> parses_aware a) ->
  exists m a_min d_min a_max d_max,
    get_alert_summary self = Ok m /\
    m !! "time_range" =
      Some (AlertProcessor.VRange (isoformat d_min) (isoformat d_max)) /\
    a_min ∈ AlertProcessor.alerts self /\ get_datetime a_min = Ok d_min /\
    a_max ∈ AlertProcessor.alerts self /\ get_datetime a_max = Ok d_max /\
    forall a d, a ∈ AlertProcessor.alerts self -> get_datetime a = Ok d ->
      (instant d_min <= instant d <= instant d_max)%Z.
Proof.
  intros Hne Hall.
  destruct (get_alert_summary_ok self Hne Hall)
    as (a1 & d1 & a2 & d2 & Ha1 & Hd1 & Ha2 & Hd2 & Hrange & Hsum).
  eexists _, a1, d1, a2, d2. split; [exact Hsum|].
  split; [|repeat (split; [assumption|]); exact Hrange].
  rewrite !lookup_insert_ne by discriminate. apply lookup_insert_eq.
Qed.

(** *** Naive and aware timestamps in one collection *)

Lemma dt_cmp_ok_awareness op x y b :
  dt_cmp op x y = Ok b -> (utcoffset x = None <-> utcoffset y = None).
Proof.
  unfold dt_cmp. destruct (utcoffset x), (utcoffset y); try discriminate;
    intros _; split; congruence.
Qed.

Lemma extreme_loop_ok_awareness op best l d :
  extreme_loop (dt_cmp op) best l = Ok d ->
  forall a d', a ∈ l -> get_datetime a = Ok d' ->
    (utcoffset d' = None <-> utcoffset best = None).
Proof.
  revert best. induction l as [|y l IH]; intros best Hd a d' Ha Hd'.
  - inversion Ha.
  - cbn in Hd. destruct (get_datetime y) as [dy|e] eqn:Hy; cbn in Hd;
      [|discriminate].
    destruct (dt_cmp op dy best) as [b|e] eqn:Hc; cbn in Hd; [|discriminate].
    pose proof (dt_cmp_ok_awareness _ _ _ _ Hc) as Haw.
    apply elem_of_cons in Ha as [->|Ha].
    + rewrite Hy in Hd'. injection Hd' as <-. exact Haw.
    + etransitivity; [exact (IH _ Hd a d' Ha Hd')|].
      destruct b; [exact Haw|reflexivity].
Qed.

Lemma extreme_ok_awareness op l d :
  extreme (dt_cmp op) l = Ok d ->
  forall a1 d1 a2 d2, a1 ∈ l -> get_datetime a1 = Ok d1 ->
    a2 ∈ l -> get_datetime a2 = Ok d2 ->
    (utcoffset d1 = None <-> utcoffset d2 = None).
Proof.
  destruct l as [|y l]; [discriminate|]. cbn.
  destruct (get_datetime y) as [dy|e] eqn:Hy; cbn; [|discriminate].
  intros Hd.
  assert (Hall : forall a d', a ∈ y :: l -> get_datetime a = Ok d' ->
                   (utcoffset d' = None <-> utcoffset dy = None)).
  { intros a d' Ha Hd'. apply elem_of_cons in Ha as [->|Ha].
    - rewrite Hy in Hd'. injection Hd' as <-. reflexivity.
    - exact (extreme_loop_ok_awareness _ _ _ _ Hd a d' Ha Hd'). }
  intros a1 d1 a2 d2 H1 Hd1 H2 Hd2.
  etransitivity; [exact (Hall a1 d1 H1 Hd1)|].
  symmetry. exact (Hall a2 d2 H2 Hd2).
Qed.

Lemma extreme_loop_err_kind op best l e :
  extreme_loop (dt_cmp op) best l = Err e -> e = ValueError \/ e = TypeError.
Proof.
  revert best. induction l as [|y l IH]; intros best; cbn; [discriminate|].
  destruct (get_datetime y) as [dy|e1] eqn:Hy; cbn.
  - destruct (dt_cmp op dy best) as [b|e2] eqn:Hc; cbn.
    + apply IH.
    + intros [= <-]. right. exact (dt_cmp_err _ _ _ _ Hc).
  - intros [= <-]. left. exact (get_datetime_err _ _ _ Hy).
Qed.

(** X17. A collection whose timestamps all parse, one to a naive and one to an
    aware datetime, has no summary: comparing the two raises [TypeError]. *)
Theorem get_alert_summary_mixed_awareness self a1 d1 a2 d2 :
  (forall a, a ∈ AlertProcessor.alerts self -> is_ok (get_datetime a) = true) ->
  a1 ∈ AlertProcessor.alerts self -> get_datetime a1 = Ok d1 ->
  utcoffset d1 = None ->
  a2 ∈ AlertProcessor.alerts self -> get_datetime a2 = Ok d2 ->
  is_Some (utcoffset d2) ->
  get_alert_summary self = Err TypeError.
Proof.
  intros Hparse H1 Hd1 Hn1 H2 Hd2 [o2 Ho2].
  unfold AlertProcessor.get_alert_summary.
  destruct (AlertProcessor.alerts self) as [|y l] eqn:Hl; [inversion H1|].
  destruct (extreme dt_lt (y :: l)) as [d|e] eqn:He.
  - pose proof (extreme_ok_awareness _ _ _ He a1 d1 a2 d2 H1 Hd1 H2 Hd2) as Haw.
    apply Haw in Hn1. congruence.
  - cbn [bind]. f_equal.
    assert (Hk : e = ValueError \/ e = TypeError).
    { cbn in He. destruct (get_datetime y) as [dy|e1] eqn:Hy; cbn in He.
      - exact (extreme_loop_err_kind _ _ _ _ He).
      - injection He as <-. left. exact (get_datetime_err _ _ _ Hy). }
    destruct Hk as [-> | ->]; [|reflexivity].
    apply extreme_value_error in He as (a & Ha & Hbad).
    specialize (Hparse a Ha). rewrite Hbad in Hparse. discriminate Hparse.
Qed.


(** *** The summary and the groups *)

Lemma filter_concat_length {A : Type} (p : A -> bool) (ls : list (list A)) :
  length (List.filter p (concat ls)) =
  list_sum (map (fun l => length (List.filter p l)) ls).
Proof.
  induction ls as [|l ls IH]; [reflexivity|].
  cbn [concat map]. rewrite List.filter_app, length_app, IH. reflexivity.
Qed.

Lemma filter_perm_length {A : Type} (p : A -> bool) (l l' : list A) :
  l ≡ₚ l' -> length (List.filter p l) = length (List.filter p l').
Proof.
  induction 1 as [|x l l' _ IH|x y l|l l' l'' _ IH1 _ IH2]; cbn.
  - reflexivity.
  - destruct (p x); cbn; rewrite IH; reflexivity.
  - destruct (p x), (p y); reflexivity.
  - rewrite IH1. exact IH2.
Qed.

(** X18. The two views agree: in the summary of a collection, the count of a
    severity is the sum, over the groups of the collection, of the groups'
    counts of that severity. *)
Theorem summary_severity_is_sum_of_groups self m counts s :
  get_alert_summary self = Ok m ->
  m !! "severity_distribution" = Some (AlertProcessor.VCounts counts) ->
  default 0 (counts !! s) =
  list_sum
    (map (fun g => default 0 (AlertGroup.severity_counts g !! s))
       (AlertProcessor.group_alerts self None)).
Proof.
  unfold AlertProcessor.get_alert_summary.
  destruct (AlertProcessor.alerts self) as [|y l] eqn:Hl.
  - intros [= <-]. rewrite lookup_singleton_ne by discriminate. discriminate.
  - destruct (extreme dt_lt (y :: l)) as [d1|]; cbn [bind]; [|discriminate].
    destruct (extreme dt_gt (y :: l)) as [d2|]; cbn [bind]; [|discriminate].
    intros [= <-]. rewrite lookup_insert_ne by discriminate.
    rewrite lookup_insert_eq. intros [= <-].
    change (AlertProcessor.group_alerts self None)
      with (AlertProcessor.group_alerts self (Some (AlertProcessor.alerts self))).
    rewrite Hl, group_alerts_closed_form. unfold groups_of.
    rewrite !map_map. cbn [snd group_of AlertGroup.severity_counts].
    assert (Hg : forall k,
      default 0 (AlertProcessor.tally Alert.severity (members (y :: l) k) !! s) =
      length (List.filter (fun a => bool_decide (Alert.severity a = s))
                (members (y :: l) k))).
    { intros k. rewrite tally_lookup. cbn zeta. destruct (length _); reflexivity. }
    rewrite (map_ext _ _ Hg).
    rewrite tally_lookup. cbn zeta.
    rewrite <- (map_map (members (y :: l))
                  (fun l0 => length (List.filter
                     (fun a => bool_decide (Alert.severity a = s)) l0))).
    rewrite <- filter_concat_length.
    rewrite (filter_perm_length _
               (concat (map (members (y :: l))
                          (first_appearance (map Alert.key (y :: l)))))
               (y :: l)).
    + destruct (length _); reflexivity.
    + apply concat_members; [apply first_appearance_NoDup|].
      intros a Ha. apply first_appearance_elem_of.
      apply list_elem_of_In, in_map, list_elem_of_In, Ha.
Qed.

End SummaryMore.

(** ** The further properties on sample data *)

(** The critical alerts of the last hour of [two_services], filtered twice. *)
Lemma filter_alerts_idempotent_witness :
  AlertProcessor.filter_alerts ascii_lower sample_fromisoformat two_services
    (Some "CRITICAL") None (Some 60%Z) 63839665800000000 =
  Ok (AlertProcessor.alerts one_critical) /\
  AlertProcessor.filter_alerts ascii_lower sample_fromisoformat one_critical
    (Some "CRITICAL") None (Some 60%Z) 63839665800000000 =
  Ok (AlertProcessor.alerts one_critical).
Proof.
  assert (H : AlertProcessor.filter_alerts ascii_lower sample_fromisoformat
                two_services (Some "CRITICAL") None (Some 60%Z) 63839665800000000
              = Ok (AlertProcessor.alerts one_critical)) by reflexivity.
  split; [exact H|].
  exact (filter_alerts_idempotent ascii_lower sample_fromisoformat two_services
           (Some "CRITICAL") None (Some 60%Z) 63839665800000000 _ H).
Defined.

(** Two spellings of the severity of [two_services]. *)
Lemma filter_alerts_case_insensitive_witness :
  ascii_lower "CRITICAL" = ascii_lower "critical" /\
  AlertProcessor.filter_alerts ascii_lower sample_fromisoformat two_services
    (Some "CRITICAL") None None 0 =
  AlertProcessor.filter_alerts ascii_lower sample_fromisoformat two_services
    (Some "critical") None None 0.
Proof.
  assert (H : ascii_lower "CRITICAL" = ascii_lower "critical") by reflexivity.
  split; [exact H|].
  refine (proj1 (filter_alerts_case_insensitive ascii_lower sample_fromisoformat
                   two_services "CRITICAL" "critical" None None 0 H _ _));
    discriminate.
Defined.

(** Ninety minutes after the alert of [one_critical], the last hour holds
    nothing and the last two hours hold the alert. *)
Lemma filter_alerts_window_monotone_witness :
  AlertProcessor.filter_alerts ascii_lower sample_fromisoformat one_critical
    None None (Some 60%Z) 63839669400000000 = Ok [] /\
  AlertProcessor.filter_alerts ascii_lower sample_fromisoformat one_critical
    None None (Some 120%Z) 63839669400000000 =
  Ok (AlertProcessor.alerts one_critical) /\
  [] `sublist_of` AlertProcessor.alerts one_critical.
Proof.
  assert (H1 : AlertProcessor.filter_alerts ascii_lower sample_fromisoformat
                 one_critical None None (Some 60%Z) 63839669400000000 = Ok [])
    by reflexivity.
  assert (H2 : AlertProcessor.filter_alerts ascii_lower sample_fromisoformat
                 one_critical None None (Some 120%Z) 63839669400000000
               = Ok (AlertProcessor.alerts one_critical)) by reflexivity.
  split; [exact H1|]. split; [exact H2|].
  refine (filter_alerts_window_monotone ascii_lower sample_fromisoformat
            one_critical None None 60 120 63839669400000000 _ _ _ _ _ H1 H2);
    [lia|discriminate|discriminate].
Defined.

(** The last hour of [aware_and_naive]: the second timestamp has no
    offset. *)
Lemma filter_alerts_naive_timestamp_witness :
  AlertProcessor.filter_alerts ascii_lower sample_fromisoformat aware_and_naive
    None None (Some 60%Z) 63839665800000000 = Err TypeError.
Proof.
  refine (filter_alerts_naive_timestamp ascii_lower sample_fromisoformat
            aware_and_naive None None (Some 60%Z) 63839665800000000 60
            (Alert.mk "a2" "2024-01-01T00:00:00" "auth" "api" "info" "latency"
               10 10 "")
            (mk_datetime 63839664000000000 None) _ _ _ _ _ _ _);
    try reflexivity.
  - intros x Hx _. apply elem_of_cons in Hx as [->|Hx]; [reflexivity|].
    apply elem_of_cons in Hx as [->|Hx]; [reflexivity|inversion Hx].
  - right. left.
Defined.

(** Two billion minutes before 2024 lies before year 1. *)
Lemma filter_alerts_cutoff_out_of_range_witness :
  (63839665800000000 - 2000000000 * 60000000 < 0)%Z /\
  AlertProcessor.filter_alerts ascii_lower sample_fromisoformat two_services
    None None (Some 2000000000%Z) 63839665800000000 = Err OverflowError.
Proof.
  assert (H : (63839665800000000 - 2000000000 * 60000000 < 0)%Z) by lia.
  split; [exact H|].
  apply (filter_alerts_cutoff_out_of_range ascii_lower sample_fromisoformat
           two_services None None 2000000000 63839665800000000);
    [discriminate|left; exact H].
Defined.

(** No alert of [two_services] comes from the service "billing". *)
Lemma filter_alerts_no_match_witness :
  AlertProcessor.filter_alerts ascii_lower sample_fromisoformat two_services
    None (Some "billing") (Some 60%Z) 63839665800000000 = Ok [].
Proof.
  apply (filter_alerts_no_match ascii_lower sample_fromisoformat two_services
           None (Some "billing") (Some 60%Z) 63839665800000000).
  - intros m Hm. injection Hm as <-. reflexivity.
  - intros a Ha. apply elem_of_cons in Ha as [->|Ha]; [reflexivity|].
    apply elem_of_cons in Ha as [->|Ha]; [reflexivity|inversion Ha].
Defined.

(** The timestamp of the scenario, spelled with [Z] and with [+00:00]. *)
Lemma get_datetime_Z_is_utc_witness :
  Alert.get_datetime sample_fromisoformat
    (Alert.mk "a1" "2024-01-01T00:00:00Z" "payment-processor" "db"
       "critical" "cpu" 95 50 "") =
  Alert.get_datetime sample_fromisoformat
    (Alert.mk "a1" "2024-01-01T00:00:00+00:00" "payment-processor" "db"
       "critical" "cpu" 95 50 "").
Proof.
  apply (get_datetime_Z_is_utc sample_fromisoformat _ _
           "2024-01-01T00:00:00" ""); reflexivity.
Defined.

Lemma scenario_parses_aware (a : Alert.t) :
  a ∈ AlertProcessor.alerts scenario_processor ->
  parses_aware sample_fromisoformat a.
Proof.
  intros Ha. apply elem_of_cons in Ha as [->|Ha];
    [eexists; split; [reflexivity|eexists; reflexivity]|].
  apply elem_of_cons in Ha as [->|Ha];
    [eexists; split; [reflexivity|eexists; reflexivity]|inversion Ha].
Qed.

(** The summary of the scenario: two alerts, one critical and one info. *)
Lemma get_alert_summary_distributions_witness :
  exists severity_counts service_counts component_counts time_range,
    AlertProcessor.get_alert_summary sample_fromisoformat (fun _ => "")
      scenario_processor =
      Ok (<["total_alerts" := AlertProcessor.VInt 2]>
          (<["severity_distribution" := AlertProcessor.VCounts severity_counts]>
          (<["service_distribution" := AlertProcessor.VCounts service_counts]>
          (<["component_distribution" := AlertProcessor.VCounts component_counts]>
          (<["time_range" := time_range]> ∅))))) /\
    distribution_of Alert.severity scenario_alerts severity_counts /\
    distribution_of Alert.service scenario_alerts service_counts /\
    distribution_of Alert.component scenario_alerts component_counts.
Proof.
  apply (get_alert_summary_distributions sample_fromisoformat (fun _ => "")
           scenario_processor); [discriminate|apply scenario_parses_aware].
Defined.

(** The time range of the scenario. *)
Lemma get_alert_summary_time_range_witness :
  exists m a_min d_min a_max d_max,
    AlertProcessor.get_alert_summary sample_fromisoformat (fun _ => "")
      scenario_processor = Ok m /\
    m !! "time_range" = Some (AlertProcessor.VRange "" "") /\
    a_min ∈ scenario_alerts /\
    Alert.get_datetime sample_fromisoformat a_min = Ok d_min /\
    a_max ∈ scenario_alerts /\
    Alert.get_datetime sample_fromisoformat a_max = Ok d_max /\
    forall a d, a ∈ scenario_alerts ->
      Alert.get_datetime sample_fromisoformat a = Ok d ->
      (instant d_min <= instant d <= instant d_max)%Z.
Proof.
  apply (get_alert_summary_time_range sample_fromisoformat (fun _ => "")
           scenario_processor); [discriminate|apply scenario_parses_aware].
Defined.

(** The summary of [aware_and_naive]. *)
Lemma get_alert_summary_mixed_awareness_witness :
  AlertProcessor.get_alert_summary sample_fromisoformat (fun _ => "")
    aware_and_naive = Err TypeError.
Proof.
  refine (get_alert_summary_mixed_awareness sample_fromisoformat (fun _ => "")
            aware_and_naive
            (Alert.mk "a2" "2024-01-01T00:00:00" "auth" "api" "info" "latency"
               10 10 "")
            (mk_datetime 63839664000000000 None)
            (Alert.mk "a1" "2024-01-01T00:00:00Z" "payment-processor" "db"
               "critical" "cpu" 95 50 "")
            (mk_datetime 63839664000000000 (Some 0%Z)) _ _ _ _ _ _ _);
    try reflexivity.
  - intros x Hx. apply elem_of_cons in Hx as [->|Hx]; [reflexivity|].
    apply elem_of_cons in Hx as [->|Hx]; [reflexivity|inversion Hx].
  - right. left.
  - left.
  - eexists. reflexivity.
Defined.

(** The critical alerts of the scenario, counted in the summary and in the
    groups. *)
Lemma summary_severity_is_sum_of_groups_witness :
  default 0 (AlertProcessor.tally Alert.severity scenario_alerts !! "critical") =
  list_sum
    (map (fun g => default 0 (AlertGroup.severity_counts g !! "critical"))
       (AlertProcessor.group_alerts scenario_processor None)).
Proof.
  eapply (summary_severity_is_sum_of_groups sample_fromisoformat (fun _ => "")
            scenario_processor).
  - reflexivity.
  - reflexivity.
Defined.

(** ** An alert exactly at its threshold *)

(** X19. For a threshold that is a finite float other than zero, an alert whose
    value is the threshold has a deviation that compares equal to zero. *)
Theorem deviation_at_threshold (a : Alert.t) (s : bool) (m : positive) (e : Z) :
  Prim2SF (Alert.threshold a) = S754_finite s m e ->
  Alert.value a = Alert.threshold a ->
  exists z, Alert.get_deviation_percentage a = Ok z /\
            PrimFloat.eqb z 0%float = true.
Proof.
  intros Hfin Hval. unfold Alert.get_deviation_percentage, truediv.
  assert (Hnz : PrimFloat.eqb (Alert.threshold a) 0%float = false).
  { rewrite FloatAxioms.eqb_spec, Hfin.
    replace (Prim2SF 0) with (S754_zero false) by (vm_compute; reflexivity).
    destruct s; reflexivity. }
  rewrite Hnz. cbn [bind]. eexists. split; [reflexivity|].
  rewrite FloatAxioms.eqb_spec, mul_spec, div_spec, sub_spec, Hval, Hfin.
  assert (Hsub : SF64sub (S754_finite s m e) (S754_finite s m e) = S754_zero false).
  { unfold SF64sub, SFsub. cbv zeta. rewrite Z.sub_diag. reflexivity. }
  rewrite Hsub.
  replace (Prim2SF 0) with (S754_zero false) by (vm_compute; reflexivity).
  replace (Prim2SF 100) with (S754_finite false 7036874417766400 (-46))
    by (vm_compute; reflexivity).
  destruct s; reflexivity.
Qed.

(** The second alert of the scenario: value 10 against threshold 10. *)
Lemma deviation_at_threshold_witness :
  Prim2SF 10 = S754_finite false 5629499534213120 (-49) /\
  exists z,
    Alert.get_deviation_percentage
      (Alert.mk "a2" "2024-01-01T00:00:00Z" "payment-processor" "db"
         "info" "cpu" 10 10 "") = Ok z /\
    PrimFloat.eqb z 0%float = true.
Proof.
  assert (H : Prim2SF 10 = S754_finite false 5629499534213120 (-49))
    by (vm_compute; reflexivity).
  split; [exact H|].
  exact (deviation_at_threshold
           (Alert.mk "a2" "2024-01-01T00:00:00Z" "payment-processor" "db"
              "info" "cpu" 10 10 "")
           false 5629499534213120 (-49) H eq_refl).
Defined.
